(** * rt_gene: the gaze estimation node (scripts/estimate_gaze.py)

    A shallow embedding of [GazeEstimatorROS]: the freshness gate on the
    head pose, the per-subject window of raw gaze estimates, its weighted
    average, and the per-frame loop over the subjects of a message.

    The node talks to six outside parties: the tf listener, the tf
    broadcaster, the clock, the gaze network of [GazeEstimatorBase], the
    image helpers and the publisher of the composite image.  Their answers are inputs of the model ([Env] and
    the collaborator functions of [Section Pipeline]); what the node asks
    of them and what it prints is recorded, in order, in the [trace] of
    the state. *)

From Stdlib Require Import ZArith QArith List String Lia.
From stdpp Require Import base option list gmap strings.

Set Default Proof Using "Type".

(** ** Arithmetic on [np.float64]

    The node never inspects a float; it only feeds them to [+], [*] and
    [/].  The operations are therefore kept abstract: every statement
    below holds for any interpretation, IEEE-754 binary64 included.
    [float_literal] reads a decimal literal of the source.  The one law
    asked of them is that [*] commutes, as it does in IEEE-754. *)

Class Float64 (F : Type) := {
  fzero : F;
  fadd : F -> F -> F;
  fmul : F -> F -> F;
  fdiv : F -> F -> F;
  float_literal : Q -> F;
  fmul_comm : forall x y : F, fmul x y = fmul y x
}.

(** Exact rational arithmetic, used to evaluate the model on examples. *)
#[export] Instance Float64_Q : Float64 Q := {|
  fzero := 0%Q;
  fadd := Qplus;
  fmul := Qmult;
  fdiv := Qdiv;
  float_literal := fun q => q;
  fmul_comm := fun x y =>
    match x, y with
    | Qmake a b, Qmake c d =>
        f_equal2 Qmake (Z.mul_comm a c) (Pos.mul_comm b d)
    end
|}.

Module Numeric.
Section Numeric.
Context {F : Type} `{Float64 F}.

(** A gaze estimate is the 2-vector [np.array([theta, phi])];
    [publish_gaze] reads [est_gaze[0]] as theta and [est_gaze[1]] as phi. *)
Record Gaze := MkGaze { theta : F; phi : F }.

Definition vadd (a b : Gaze) : Gaze :=
  MkGaze (fadd (theta a) (theta b)) (fadd (phi a) (phi b)).

(** Row [row] of the sample matrix times its (broadcast) weight. *)
Definition vscale (row : Gaze) (w : F) : Gaze :=
  MkGaze (fmul (theta row) w) (fmul (phi row) w).

Definition vdiv (a : Gaze) (s : F) : Gaze :=
  MkGaze (fdiv (theta a) s) (fdiv (phi a) s).

(** [ndarray.sum()] of a short 1-d array: a left-to-right reduction
    that starts from the first element. *)
Definition np_sum (l : list F) : F :=
  match l with
  | [] => fzero
  | x :: r => fold_left fadd r x
  end.

(** [ndarray.sum(axis=0)] of an n-by-2 matrix: the rows are added up. *)
Definition np_sum_axis0 (rows : list Gaze) : Gaze :=
  match rows with
  | [] => MkGaze fzero fzero
  | g :: r => fold_left vadd r g
  end.

(** [np.average(a, axis=0, weights=w)] as numpy computes it:
    [scl = w.sum()], [avg = np.multiply(a, w).sum(axis=0) / scl].
    numpy raises [ZeroDivisionError] only when [scl] is [0.0]; the one
    weight vector the node uses is the constant of line 50, whose sum
    is not zero, so that exit is left out. *)
Definition np_average (a : list Gaze) (weights : list F) : Gaze :=
  let scl := np_sum weights in
  vdiv (np_sum_axis0 (zip_with vscale a weights)) scl.

(** The smoothing formula in the words of the design document:
    [sum_i w_i * e_i / sum_i w_i] on one component. *)
Definition weighted_mean (w e : list F) : F :=
  fdiv (np_sum (zip_with fmul w e)) (np_sum w).

(** Line 50: [self.average_weights]. *)
Definition average_weights : list F :=
  map float_literal [0.1%Q; 0.125%Q; 0.175%Q; 0.2%Q; 0.4%Q].

End Numeric.
Arguments Gaze F : clear implicits.
End Numeric.
Export Numeric.

(** ** [rospy.Time] and [rospy.Duration]

  Both are a pair of integers, seconds and nanoseconds, kept canonical
  ([0 <= nsecs < 10^9]) by every operation. *)

Module RosTime.

Record TVal := MkT { secs : Z; nsecs : Z }.

Definition nano : Z := 1000000000.

Definition canon (s n : Z) : TVal :=
  MkT (s + n / nano) (n mod nano).

(** [Time.__sub__]: the difference of two times is a duration. *)
Definition time_sub (a b : TVal) : TVal :=
  canon (secs a - secs b) (nsecs a - nsecs b).

(** [Duration.to_sec()]: [float(secs) + float(nsecs) / 1e9].  The value
    is only ever compared with [0.25], which binary64 represents
    exactly, and rounding is monotone, so the comparison on the exact
    quotient decides the same way as the one on the rounded float. *)
Definition to_sec (d : TVal) : Q :=
  (inject_Z (secs d) + (nsecs d # 1000000000))%Q.

Definition to_nsec (t : TVal) : Z := secs t * nano + nsecs t.

Definition Qltb (x y : Q) : bool :=
  (Qnum x * QDen y <? Qnum y * QDen x)%Z.

Definition of_nsec (n : Z) : TVal := canon 0 n.

(** Line 69: [(timestamp - lct).to_sec() < 0.25]. *)
Definition fresh (timestamp lct : TVal) : bool :=
  Qltb (to_sec (time_sub timestamp lct)) 0.25.

(** Line 89 divides by [(rospy.Time.now() - self.time_last).to_sec()];
    the division of floats raises when the divisor is [0.0], which
    [to_sec] gives for the zero duration only. *)
Definition divides_by_zero (now time_last : TVal) : bool :=
  Qeq_bool (to_sec (time_sub now time_last)) 0.

End RosTime.
Export RosTime.

(** ** [collections.deque(maxlen=...)] *)

Module Deque.
Section Deque.
Context {A : Type}.

Record deque := MkDeque { items : list A; maxlen : nat }.

Definition deque_new (n : nat) : deque := MkDeque [] n.

(** [deque.append]: the item goes to the right end; when that takes the
    length over [maxlen], one item is dropped from the left end. *)
Definition deque_append (x : A) (d : deque) : deque :=
  let l := items d ++ [x] in
  MkDeque (if maxlen d <? length l then tail l else l) (maxlen d).

Definition deque_len (d : deque) : nat := length (items d).

(** The last [n] items of a list. *)
Definition window (n : nat) (l : list A) : list A := drop (length l - n) l.

End Deque.
Arguments deque A : clear implicits.
End Deque.
Export Deque.

(** ** Exceptions, events and the state of the node *)

(** Subject ids are the integer keys of the dictionary built by
    [SubjectListBridge.msg_to_images]. *)
Abbreviation SubjectId := Z (only parsing).

(** What the tf listener raises: the three exceptions the node names
    in its handler and their base class [tf.Exception]. *)
Inductive tf_error : Type :=
| LookupException
| ConnectivityException
| ExtrapolationException
| TfException.

(** The exceptions of the model: those of the tf listener, the
    [rospy.ROSException] of a publisher, [KeyError] for a miss in
    [self.gaze_buffer_c] and [ZeroDivisionError] for the frame rate of
    line 89. *)
Inductive exn : Type :=
| Tf (e : tf_error)
| ROSException (msg : string)
| KeyError (key : SubjectId)
| ZeroDivisionError.

Definition closed_topic : string := "publish() to a closed topic".

(** The outside parties the node computes with.  [get_phi_theta_from_euler]
    returns the pair in the order (phi, theta); [concatenate] takes the
    axis last. *)
Class Collaborators (F Image Input Rot Euler : Type) := {
  input_from_image : Image -> Input;
  estimate_gaze_twoeyes : Input -> Input -> F * F -> Gaze F;
  limit_yaw : Rot -> Euler;
  get_phi_theta_from_euler : Euler -> F * F;
  get_euler_from_phi_theta : F -> F -> Euler;
  quaternion_from_euler : Euler -> Rot;
  visualize_eye_result : Image -> Gaze F -> Image;
  concatenate : Image -> Image -> nat -> Image
}.

(** ** The node *)

Section Pipeline.
Context {F Image Input Rot Euler : Type}.
Context `{Float64 F} `{Collaborators F Image Input Rot Euler}.

(** What the node prints: the line of line 78, the exception of line
    94, the "See ya" of line 97, the Euler angles of line 76, and the
    estimate of line 89 with the two durations its frame rate and latency
    are computed from. *)
Inductive diagnostic : Type :=
| TooBigTimeDiff (delta : TVal)
| PrintedException (e : tf_error)
| SeeYa
| EulerAnglesHead (euler_angles_head : Euler)
| GazeRate (est_gaze_c_med : Gaze F) (since_last latency : TVal).

(** Calls that leave the node, in the order they are made. *)
Inductive Event : Type :=
| EstimateGazeTwoEyes (arg1 arg2 : Input) (headpose : F * F)
| PublishGaze (est_gaze : Gaze F) (msg_stamp : TVal) (subject_id : SubjectId)
| SendTransform (rotation : Rot) (msg_stamp : TVal) (subject_id : SubjectId)
| PublishGazeImage (img : Image)
| Diagnostic (d : diagnostic).

(** The answers of the tf tree, of the clock and of the image
    publisher during one callback.  The frames asked for are fixed by the
    subject id, so the answers are keyed by it.  [lookupTransform] also
    returns a translation, which the node drops.  [sendTransform] answers
    [None] when the broadcast goes through and the message of the
    [rospy.ROSException] otherwise, and so does [publish] for the
    publisher of [/subjects/gazeimages].  [now sid i] is what the [i]-th
    [rospy.Time.now()] after the broadcast for subject [sid] returns: that
    of line 88 (0), of line 89 (1) and of line 90 (2). *)
Record Env := MkEnv {
  getLatestCommonTime : SubjectId -> tf_error + TVal;
  lookupTransform : SubjectId -> TVal -> tf_error + Rot;
  sendTransform : Rot -> TVal -> SubjectId -> option string;
  now : SubjectId -> nat -> TVal;
  publish : Image -> option string
}.

(** [self.gaze_buffer_c], [self.time_last], and the calls made and
    lines printed so far (oldest first). *)
Record State := MkState {
  gaze_buffer_c : gmap Z (deque (Gaze F));
  time_last : TVal;
  trace : list Event
}.

(** Lines 50-52: the node as [__init__] leaves it, [t0] being what
    [rospy.Time.now()] returns there. *)
Definition init (t0 : TVal) : State := MkState ∅ t0 [].

(** *** A state monad in which a raised exception keeps the state *)

Definition M (A : Type) : Type := State -> (exn + A) * State.

Definition ret {A} (a : A) : M A := fun s => (inr a, s).

Definition raise {A} (e : exn) : M A := fun s => (inl e, s).

Definition bind {A B} (c : M A) (k : A -> M B) : M B := fun s =>
  match c s with
  | (inr a, s') => k a s'
  | (inl e, s') => (inl e, s')
  end.

Notation "x <- c ;; k" := (bind c (fun x => k))
  (at level 100, c at next level, right associativity).
Notation "c ;;; k" := (bind c (fun _ => k))
  (at level 100, right associativity).

(** Whether a result is an exception. *)
Definition raises {A} (r : exn + A) : bool :=
  match r with
  | inl _ => true
  | inr _ => false
  end.

Definition lift {A} (r : tf_error + A) : M A :=
  match r with
  | inl e => raise (Tf e)
  | inr a => ret a
  end.

Definition emit (ev : Event) : M unit := fun s =>
  (inr tt, MkState (gaze_buffer_c s) (time_last s) (trace s ++ [ev])).

Definition set_buffers (b : gmap Z (deque (Gaze F))) : M unit := fun s =>
  (inr tt, MkState b (time_last s) (trace s)).

Definition get_time_last : M TVal := fun s => (inr (time_last s), s).

Definition set_time_last (t : TVal) : M unit := fun s =>
  (inr tt, MkState (gaze_buffer_c s) t (trace s)).

(** [self.gaze_buffer_c[subject_id]] *)
Definition getitem (subject_id : SubjectId) : M (deque (Gaze F)) := fun s =>
  match gaze_buffer_c s !! subject_id with
  | Some d => (inr d, s)
  | None => (inl (KeyError subject_id), s)
  end.

(** Line 83: [self.gaze_buffer_c[subject_id].append(est_gaze_c)].  The
    deque is mutated in place; here its slot in the dictionary is
    overwritten. *)
Definition buffer_append (subject_id : SubjectId) (est : Gaze F) : M unit :=
  d <- getitem subject_id ;;
  fun s => set_buffers (<[subject_id := deque_append est d]> (gaze_buffer_c s)) s.

(** Line 81: the call into the gaze network. *)
Definition call_estimate_gaze_twoeyes (a1 a2 : Input) (hp : F * F) : M (Gaze F) :=
  emit (EstimateGazeTwoEyes a1 a2 hp) ;;;
  ret (estimate_gaze_twoeyes a1 a2 hp).

(** Lines 131-138: [publish_gaze]. *)
Definition publish_gaze (env : Env) (est_gaze : Gaze F) (msg_stamp : TVal)
    (subject_id : SubjectId) : M unit :=
  emit (PublishGaze est_gaze msg_stamp subject_id) ;;;
  let theta_gaze := theta est_gaze in
  let phi_gaze := phi est_gaze in
  let euler_angle_gaze := get_euler_from_phi_theta phi_gaze theta_gaze in
  let quaternion_gaze := quaternion_from_euler euler_angle_gaze in
  emit (SendTransform quaternion_gaze msg_stamp subject_id) ;;;
  match sendTransform env quaternion_gaze msg_stamp subject_id with
  | Some msg => raise (ROSException msg)
  | None => ret tt
  end.

(** Lines 88-90: the latency, the line with the frame rate, and the new
    [self.time_last].  The frame rate is [1. / d] with [d] the seconds
    since [self.time_last]; Python raises [ZeroDivisionError] for
    [d = 0.0], before anything is written. *)
Definition report_rate (env : Env) (est_gaze_c_med : Gaze F) (timestamp : TVal)
    (subject_id : SubjectId) : M unit :=
  let time_total := time_sub (now env subject_id 0) timestamp in
  last <- get_time_last ;;
  (if divides_by_zero (now env subject_id 1) last
   then raise ZeroDivisionError
   else emit (Diagnostic (GazeRate est_gaze_c_med
                            (time_sub (now env subject_id 1) last) time_total))) ;;;
  set_time_last (now env subject_id 2).

(** Lines 68-91: the body of the [try]. *)
Definition try_block (env : Env) (subject_id : SubjectId) (timestamp : TVal)
    (input_r input_l : Input) : M (option (Gaze F)) :=
  lct <- lift (getLatestCommonTime env subject_id) ;;
  if fresh timestamp lct then
    rot_head <- lift (lookupTransform env subject_id lct) ;;
    let euler_angles_head := limit_yaw rot_head in
    let '(phi_head, theta_head) := get_phi_theta_from_euler euler_angles_head in
    emit (Diagnostic (EulerAnglesHead euler_angles_head)) ;;;
    est_gaze_c <- call_estimate_gaze_twoeyes input_l input_r (theta_head, phi_head) ;;
    buffer_append subject_id est_gaze_c ;;;
    buf <- getitem subject_id ;;
    if length (average_weights (F:=F)) =? deque_len buf then
      let est_gaze_c_med := np_average (items buf) average_weights in
      publish_gaze env est_gaze_c_med timestamp subject_id ;;;
      report_rate env est_gaze_c_med timestamp subject_id ;;;
      ret (Some est_gaze_c_med)
    else
      ret None
  else
    emit (Diagnostic (TooBigTimeDiff (time_sub timestamp lct))) ;;;
    ret None.

(** Lines 93-97: the two [except] clauses.  The tf exceptions are
    printed; a [rospy.ROSException] is printed as "See ya" when it is the
    closed-topic one and dropped silently otherwise; anything else
    propagates to the caller. *)
Definition except_clauses (e : exn) : M (option (Gaze F)) :=
  match e with
  | Tf tf_e => emit (Diagnostic (PrintedException tf_e)) ;;; ret None
  | ROSException msg =>
      if String.eqb msg closed_topic
      then emit (Diagnostic SeeYa) ;;; ret None
      else ret None
  | KeyError _ | ZeroDivisionError => raise e
  end.

(** Lines 60-98: [compute_eye_gaze_estimation]; a handled exception
    ends the call at the [return None] of line 98. *)
Definition compute_eye_gaze_estimation (env : Env) (subject_id : SubjectId)
    (timestamp : TVal) (input_r input_l : Input) : M (option (Gaze F)) := fun s =>
  match try_block env subject_id timestamp input_r input_l s with
  | (inr r, s') => (inr r, s')
  | (inl e, s') => except_clauses e s'
  end.

(** One entry of the dictionary returned by [msg_to_images]. *)
Record SubjectImages := MkSubject { right : Image; left : Image }.

(** A [MSG_SubjectImagesList] after [msg_to_images]: the stamp of the
    header and the items of the dictionary in iteration order. *)
Record Msg := MkMsg {
  stamp : TVal;
  subjects : list (SubjectId * SubjectImages)
}.

(** Lines 111-112. *)
Definition ensure_buffer (subject_id : SubjectId) : M unit := fun s =>
  if decide (subject_id ∈ dom (gaze_buffer_c s))
  then (inr tt, s)
  else set_buffers (<[subject_id := deque_new 5]> (gaze_buffer_c s)) s.

(** Lines 111-125: the body of the loop for one item of the
    dictionary; [subjects_gaze_img] is the image composed so far. *)
Definition loop_body (env : Env) (timestamp : TVal)
    (subjects_gaze_img : option Image) (item : SubjectId * SubjectImages)
    : M (option Image) :=
  let '(subject_id, s) := item in
  ensure_buffer subject_id ;;;
  let input_r := input_from_image (right s) in
  let input_l := input_from_image (left s) in
  gaze_est <- compute_eye_gaze_estimation env subject_id timestamp input_r input_l ;;
  match gaze_est with
  | Some g =>
      let r_gaze_img := visualize_eye_result (right s) g in
      let l_gaze_img := visualize_eye_result (left s) g in
      let s_gaze_img := concatenate r_gaze_img l_gaze_img 1 in
      ret (Some match subjects_gaze_img with
                | None => s_gaze_img
                | Some img => concatenate img s_gaze_img 0
                end)
  | None => ret subjects_gaze_img
  end.

(** Line 110: [for subject_id, s in subjects_dict.items()].  An
    exception that leaves a pass ends the loop. *)
Fixpoint for_subjects (env : Env) (timestamp : TVal)
    (l : list (SubjectId * SubjectImages)) (subjects_gaze_img : option Image)
    : M (option Image) :=
  match l with
  | [] => ret subjects_gaze_img
  | item :: rest =>
      img <- loop_body env timestamp subjects_gaze_img item ;;
      for_subjects env timestamp rest img
  end.

(** Lines 100-129: [image_callback].  Nothing in it catches an
    exception: one that leaves the loop, or the [rospy.ROSException] of
    the publisher at line 129, leaves the callback. *)
Definition image_callback (env : Env) (subject_image_list : Msg) : M unit :=
  let timestamp := stamp subject_image_list in
  img <- for_subjects env timestamp (subjects subject_image_list) None ;;
  match img with
  | Some i =>
      emit (PublishGazeImage i) ;;;
      match publish env i with
      | Some msg => raise (ROSException msg)
      | None => ret tt
      end
  | None => ret tt
  end.

(** [rospy.spin()]: the callbacks run one after the other; an exception
    that leaves a callback is logged by rospy and the node goes on with
    the state the callback left. *)
Fixpoint spin (frames : list (Env * Msg)) (s : State) : State :=
  match frames with
  | [] => s
  | (env, m) :: rest => spin rest (snd (image_callback env m s))
  end.

(** The state one pass of the loop body leaves, whether it returns or
    raises, and the state a run of passes leaves.  The image composed so
    far has no part in it ([loop_body_pass] below), so the pass is run
    without one.  The state after a callback is the state after the passes
    it started ([image_callback_run]), up to the image published at its
    end. *)
Definition pass (p : Env * TVal * (SubjectId * SubjectImages)) (s : State) : State :=
  snd (loop_body (fst (fst p)) (snd (fst p)) None (snd p) s).

Definition run (ps : list (Env * TVal * (SubjectId * SubjectImages))) (s : State)
    : State :=
  fold_left (fun st p => pass p st) ps s.

(** *** Views of one call, for the statements below

    [gate] is the decision lines 68-79 take before the gaze network is
    asked: the Euler angles printed and the head pose handed on, or why
    the subject is skipped. *)
Inductive GateResult : Type :=
| Accept (euler_angles_head : Euler) (headpose : F * F)
| RejectStale (delta : TVal)
| RejectLookup (e : tf_error).

Definition gate (env : Env) (subject_id : SubjectId) (timestamp : TVal) : GateResult :=
  match getLatestCommonTime env subject_id with
  | inl e => RejectLookup e
  | inr lct =>
      if fresh timestamp lct then
        match lookupTransform env subject_id lct with
        | inl e => RejectLookup e
        | inr rot_head =>
            let '(phi_head, theta_head) :=
              get_phi_theta_from_euler (limit_yaw rot_head) in
            Accept (limit_yaw rot_head) (theta_head, phi_head)
        end
      else RejectStale (time_sub timestamp lct)
  end.

(** The samples held for a subject, oldest first (none when the subject
    has no buffer yet). *)
Definition samples (s : State) (subject_id : SubjectId) : list (Gaze F) :=
  match gaze_buffer_c s !! subject_id with
  | Some d => items d
  | None => []
  end.

(** The smoothed estimates handed to [publish_gaze] for one subject. *)
Definition emitted_for (subject_id : SubjectId) (ev : Event) : option (Gaze F) :=
  match ev with
  | PublishGaze g _ sid => if decide (sid = subject_id) then Some g else None
  | _ => None
  end.

Definition emissions (subject_id : SubjectId) (tr : list Event) : list (Gaze F) :=
  omap (emitted_for subject_id) tr.

(** The composite images given to the publisher of
    [/subjects/gazeimages]. *)
Definition published_images (tr : list Event) : list Image :=
  omap (fun ev => match ev with PublishGazeImage i => Some i | _ => None end) tr.

(** The calls into the gaze network, with their arguments in order. *)
Definition estimator_calls (tr : list Event) : list (Input * Input * (F * F)) :=
  omap (fun ev => match ev with
                  | EstimateGazeTwoEyes a1 a2 hp => Some (a1, a2, hp)
                  | _ => None
                  end) tr.

(** The calls of [publish_gaze]. *)
Definition handed_on (tr : list Event) : list (Gaze F * TVal * SubjectId) :=
  omap (fun ev => match ev with
                  | PublishGaze g ts sid => Some (g, ts, sid)
                  | _ => None
                  end) tr.

(** The transforms given to the broadcaster. *)
Definition broadcasts (tr : list Event) : list (Rot * TVal * SubjectId) :=
  omap (fun ev => match ev with
                  | SendTransform q ts sid => Some (q, ts, sid)
                  | _ => None
                  end) tr.

(** Every line printed. *)
Definition printed (tr : list Event) : list diagnostic :=
  omap (fun ev => match ev with Diagnostic d => Some d | _ => None end) tr.

Definition quaternion_of (g : Gaze F) : Rot :=
  quaternion_from_euler (get_euler_from_phi_theta (phi g) (theta g)).

(** Lines 133-138 on one call of [publish_gaze]. *)
Definition as_transform (c : Gaze F * TVal * SubjectId) : Rot * TVal * SubjectId :=
  let '(g, ts, sid) := c in (quaternion_of g, ts, sid).

(** What lines 88-90 do after a broadcast that went through. *)
Definition after_broadcast (env : Env) (subject_id : SubjectId) (timestamp : TVal)
    (med : Gaze F) (s : State) : (exn + option (Gaze F)) * State :=
  if divides_by_zero (now env subject_id 1) (time_last s) then
    (inl ZeroDivisionError, s)
  else
    (inr (Some med),
     MkState (gaze_buffer_c s) (now env subject_id 2)
       (trace s ++
        [Diagnostic (GazeRate med (time_sub (now env subject_id 1) (time_last s))
                       (time_sub (now env subject_id 0) timestamp))])).

(** What lines 76-91 do once the gate has let a subject through with
    Euler angles [euler] and head pose [hp], and [d] is the subject's
    buffer. *)
Definition accepted_outcome (env : Env) (subject_id : SubjectId) (timestamp : TVal)
    (input_r input_l : Input) (euler : Euler) (hp : F * F)
    (d : deque (Gaze F)) (s : State)
    : (exn + option (Gaze F)) * State :=
  let est := estimate_gaze_twoeyes input_l input_r hp in
  let d' := deque_append est d in
  let s1 := MkState (<[subject_id := d']> (gaze_buffer_c s)) (time_last s)
                    (trace s ++ [Diagnostic (EulerAnglesHead euler);
                                 EstimateGazeTwoEyes input_l input_r hp]) in
  if length (average_weights (F:=F)) =? deque_len d' then
    let med := np_average (items d') average_weights in
    let s2 := MkState (gaze_buffer_c s1) (time_last s1)
                (trace s1 ++ [PublishGaze med timestamp subject_id;
                              SendTransform (quaternion_of med) timestamp subject_id]) in
    match sendTransform env (quaternion_of med) timestamp subject_id with
    | None => after_broadcast env subject_id timestamp med s2
    | Some msg => except_clauses (ROSException msg) s2
    end
  else (inr None, s1).

(** The buffer a subject has once lines 111-112 have run. *)
Definition buffer_of (s : State) (subject_id : SubjectId) : deque (Gaze F) :=
  match gaze_buffer_c s !! subject_id with
  | Some d => d
  | None => deque_new 5
  end.

(** The raw estimate the gaze network returns for one item of a
    message, when the gate lets the subject through. *)
Definition raw_estimate (env : Env) (timestamp : TVal)
    (item : SubjectId * SubjectImages) : option (Gaze F) :=
  match gate env (fst item) timestamp with
  | Accept _ hp =>
      Some (estimate_gaze_twoeyes (input_from_image (left (snd item)))
                                  (input_from_image (right (snd item))) hp)
  | _ => None
  end.

(** The buffer one pass leaves a subject with; [d0] is the subject's
    buffer after lines 111-112. *)
Definition item_buffer (env : Env) (timestamp : TVal)
    (item : SubjectId * SubjectImages) (d0 : deque (Gaze F)) : deque (Gaze F) :=
  match raw_estimate env timestamp item with
  | Some est => deque_append est d0
  | None => d0
  end.

(** The smoothed estimate line 86 computes in one pass, if the gate
    passes and the window is full. *)
Definition item_smoothed (env : Env) (timestamp : TVal)
    (item : SubjectId * SubjectImages) (d0 : deque (Gaze F)) : option (Gaze F) :=
  match raw_estimate env timestamp item with
  | Some _ =>
      let d' := item_buffer env timestamp item d0 in
      if length (average_weights (F:=F)) =? deque_len d'
      then Some (np_average (items d') average_weights)
      else None
  | None => None
  end.

(** The arguments line 81 gives the gaze network for an item that
    passes the gate. *)
Definition estimator_call (env : Env) (timestamp : TVal)
    (item : SubjectId * SubjectImages) : option (Input * Input * (F * F)) :=
  match gate env (fst item) timestamp with
  | Accept _ hp =>
      Some (input_from_image (left (snd item)),
            input_from_image (right (snd item)), hp)
  | _ => None
  end.

(** What lines 78 and 94 print for an item that does not pass. *)
Definition rejection (env : Env) (timestamp : TVal)
    (item : SubjectId * SubjectImages) : option diagnostic :=
  match gate env (fst item) timestamp with
  | Accept _ _ => None
  | RejectStale delta => Some (TooBigTimeDiff delta)
  | RejectLookup e => Some (PrintedException e)
  end.

(** The raw estimates pushed for one subject by a run of passes. *)
Definition pushes (subject_id : SubjectId)
    (ps : list (Env * TVal * (SubjectId * SubjectImages))) : list (Gaze F) :=
  omap (fun p => if decide (fst (snd p) = subject_id)
                 then raw_estimate (fst (fst p)) (snd (fst p)) (snd p)
                 else None) ps.

(** Pushing [xs] one by one into a window that holds [buf]: the
    averages of the windows that are full after a push. *)
Fixpoint sliding (n : nat) (weights : list F) (buf xs : list (Gaze F))
    : list (Gaze F) :=
  match xs with
  | [] => []
  | x :: rest =>
      let buf' := window n (buf ++ [x]) in
      (if length weights =? length buf' then [np_average buf' weights] else [])
        ++ sliding n weights buf' rest
  end.

(** The same average, component by component, in the words of the
    design document. *)
Definition smoothed (weights : list F) (es : list (Gaze F)) : Gaze F :=
  MkGaze (weighted_mean weights (map theta es))
         (weighted_mean weights (map phi es)).

(** Every buffer of the dictionary was made by line 112 and is within
    its capacity. *)
Definition wf_deque (d : deque (Gaze F)) : Prop :=
  maxlen d = 5 /\ deque_len d <= 5.

Definition wf_state (s : State) : Prop :=
  forall sid d, gaze_buffer_c s !! sid = Some d -> wf_deque d.

(** The keys of a dictionary are distinct. *)
Definition wf_msg (m : Msg) : Prop := NoDup (map fst (subjects m)).

(** Lines 119-121: the two eyes of a subject with the estimate drawn on
    them, the right eye to the left. *)
Definition eyes_row (item : SubjectId * SubjectImages) (gaze_est : Gaze F) : Image :=
  concatenate (visualize_eye_result (right (snd item)) gaze_est)
              (visualize_eye_result (left (snd item)) gaze_est) 1.

(** Lines 118-125: the composite image after one item. *)
Definition item_image (subjects_gaze_img : option Image)
    (item : SubjectId * SubjectImages) (gaze_est : option (Gaze F)) : option Image :=
  match gaze_est with
  | Some g =>
      Some match subjects_gaze_img with
           | None => eyes_row item g
           | Some img => concatenate img (eyes_row item g) 0
           end
  | None => subjects_gaze_img
  end.

(** The passes of the loop that a callback starts, each with the
    answers and the stamp it runs under: the loop goes from one item to
    the next and stops at the first pass that raises. *)
Fixpoint passes (env : Env) (timestamp : TVal)
    (l : list (SubjectId * SubjectImages)) (s : State)
    : list (Env * TVal * (SubjectId * SubjectImages)) :=
  match l with
  | [] => []
  | item :: rest =>
      (env, timestamp, item) ::
      match loop_body env timestamp None item s with
      | (inr _, s') => passes env timestamp rest s'
      | (inl _, _) => []
      end
  end.

(** The passes started by a run of callbacks. *)
Fixpoint spin_passes (frames : list (Env * Msg)) (s : State)
    : list (Env * TVal * (SubjectId * SubjectImages)) :=
  match frames with
  | [] => []
  | (env, m) :: rest =>
      passes env (stamp m) (subjects m) s ++
      spin_passes rest (snd (image_callback env m s))
  end.

(** Lines 122-125: the rows composed so far with more rows put under
    them. *)
Definition stack (subjects_gaze_img : option Image) (rows : list Image)
    : option Image :=
  fold_left (fun acc row => Some match acc with
                                 | None => row
                                 | Some img => concatenate img row 0
                                 end)
            rows subjects_gaze_img.

(** The rows of the subjects of a message whose pass returns an
    estimate, up to the first pass that raises. *)
Fixpoint eyes_rows (env : Env) (timestamp : TVal)
    (l : list (SubjectId * SubjectImages)) (s : State) : list Image :=
  match l with
  | [] => []
  | item :: rest =>
      match loop_body env timestamp None item s with
      | (inr row, s') => option_list row ++ eyes_rows env timestamp rest s'
      | (inl _, _) => []
      end
  end.

End Pipeline.

(** ** A stand-in for the outside parties

    Images are strings, floats are rationals, and a rotation already is
    the pair (theta, phi) that the gaze network hands back unchanged, so
    that the answers of the tf tree decide the raw estimates. *)

Module Demo.

#[export] Instance collaborators
  : Collaborators Q string string (Q * Q) (Q * Q) := {|
  input_from_image := fun img => String.append "in:" img;
  estimate_gaze_twoeyes := fun _ _ hp => MkGaze (fst hp) (snd hp);
  limit_yaw := fun r => r;
  get_phi_theta_from_euler := fun e => (snd e, fst e);
  get_euler_from_phi_theta := fun ph th => (th, ph);
  quaternion_from_euler := fun e => e;
  visualize_eye_result := fun img _ => img;
  concatenate := fun a b axis =>
    String.append a (String.append (if axis =? 0 then "/" else "|") b)
|}.

Definition DemoEnv : Type := Env (Image:=string) (Rot:=Q * Q).

(** A time given in milliseconds. *)
Definition ms (n : Z) : TVal := of_nsec (n * 1000000).

(** The tf tree knows a pose stamped [pose_ms] with angles [th], [ph]
    for every subject, the broadcast and the image publisher go through,
    and the clock reads [now_ms] throughout the callback. *)
Definition env_ok (pose_ms now_ms : Z) (th ph : Q) : DemoEnv :=
  MkEnv (fun _ => inr (ms pose_ms)) (fun _ _ => inr (th, ph)) (fun _ _ _ => None)
        (fun _ _ => ms now_ms) (fun _ => None).

(** The broadcast raises a [rospy.ROSException] with the message [msg]. *)
Definition env_raising (msg : string) (pose_ms now_ms : Z) (th ph : Q) : DemoEnv :=
  MkEnv (fun _ => inr (ms pose_ms)) (fun _ _ => inr (th, ph))
        (fun _ _ _ => Some msg) (fun _ _ => ms now_ms) (fun _ => None).

(** The same, but the broadcast hits a closed topic. *)
Definition env_closed (pose_ms now_ms : Z) (th ph : Q) : DemoEnv :=
  env_raising closed_topic pose_ms now_ms th ph.

(** Only subject [ok_id] has a pose; the lookup fails for the others. *)
Definition env_only (ok_id : Z) (pose_ms now_ms : Z) (th ph : Q) : DemoEnv :=
  MkEnv (fun sid => if (sid =? ok_id)%Z then inr (ms pose_ms) else inl LookupException)
        (fun _ _ => inr (th, ph)) (fun _ _ _ => None) (fun _ _ => ms now_ms)
        (fun _ => None).

(** As [env_ok], with a clock that moves: every reading is later than
    the one before, also from one subject of the message to the next. *)
Definition env_ticking (pose_ms now_ms : Z) (th ph : Q) : DemoEnv :=
  MkEnv (fun _ => inr (ms pose_ms)) (fun _ _ => inr (th, ph)) (fun _ _ _ => None)
        (fun sid i => ms (now_ms + 10 * sid + Z.of_nat i)) (fun _ => None).

Definition g (th ph : Q) : Gaze Q := MkGaze th ph.

Definition DemoState : Type :=
  State (F:=Q) (Image:=string) (Input:=string) (Rot:=Q * Q) (Euler:=Q * Q).

(** Subject 1 with four samples in its buffer; the frame rate was last
    printed at 900 ms. *)
Definition four : DemoState :=
  MkState {[ 1%Z := MkDeque [g 1 1; g 2 2; g 3 3; g 4 4] 5 ]} (ms 900) [].

(** Subject 1 with a full buffer. *)
Definition five : DemoState :=
  MkState {[ 1%Z := MkDeque [g 1 1; g 2 2; g 3 3; g 4 4; g 5 5] 5 ]} (ms 900) [].

(** Subjects 1 and 2, both with a full buffer. *)
Definition two_full : DemoState :=
  MkState {[ 1%Z := MkDeque [g 1 1; g 2 2; g 3 3; g 4 4; g 5 5] 5;
             2%Z := MkDeque [g 1 1; g 2 2; g 3 3; g 4 4; g 5 5] 5 ]} (ms 900) [].

(** Subjects 1, 2 and 3, all with a full buffer. *)
Definition three_full : DemoState :=
  MkState {[ 1%Z := MkDeque [g 1 1; g 2 2; g 3 3; g 4 4; g 5 5] 5;
             2%Z := MkDeque [g 1 1; g 2 2; g 3 3; g 4 4; g 5 5] 5;
             3%Z := MkDeque [g 1 1; g 2 2; g 3 3; g 4 4; g 5 5] 5 ]} (ms 900) [].

Definition both_eyes : SubjectImages := MkSubject "R" "L".

Definition frame (t : Z) (ids : list Z) : Msg :=
  MkMsg (ms t) (map (fun i => (i, both_eyes)) ids).

(** Six frames, 100 ms apart, each with subject 1 alone and a pose 50 ms
    old whose angles are the number of the frame; the clock is 10 ms
    ahead of the stamp of the frame. *)
Definition six_frames : list (DemoEnv * Msg (Image:=string)) :=
  [(env_ok 950 1010 1 1, frame 1000 [1%Z]);
   (env_ok 1050 1110 2 2, frame 1100 [1%Z]);
   (env_ok 1150 1210 3 3, frame 1200 [1%Z]);
   (env_ok 1250 1310 4 4, frame 1300 [1%Z]);
   (env_ok 1350 1410 5 5, frame 1400 [1%Z]);
   (env_ok 1450 1510 6 6, frame 1500 [1%Z])].

End Demo.

(** * Properties *)

(** The cases of [accepted_outcome]: the window is not full yet, the
    broadcast raises (closed topic or not), the clock has not moved, or
    the estimate is returned. *)
Ltac outcome_cases :=
  unfold accepted_outcome, after_broadcast, except_clauses, bind, emit, ret, raise;
  cbn [gaze_buffer_c trace time_last];
  match goal with
  | |- context [Nat.eqb ?a ?b] => destruct (Nat.eqb a b) eqn:Hlen
  end;
  [ match goal with
    | |- context [sendTransform ?e ?q ?t ?i] =>
        destruct (sendTransform e q t i) as [msg|] eqn:Hsend
    end;
    [ match goal with
      | |- context [String.eqb ?m closed_topic] =>
          destruct (String.eqb m closed_topic) eqn:Hclosed
      end
    | match goal with
      | |- context [divides_by_zero ?a ?b] =>
          destruct (divides_by_zero a b) eqn:Hzero
      end ]
  | ];
  cbn [fst snd gaze_buffer_c trace time_last].

(** ** Time *)

Lemma to_nsec_time_sub (a b : TVal) :
  to_nsec (time_sub a b) = (to_nsec a - to_nsec b)%Z.
Proof.
  unfold to_nsec, time_sub, canon, nano; simpl.
  pose proof (Z.div_mod (nsecs a - nsecs b) 1000000000 ltac:(lia)).
  lia.
Qed.

Lemma Qltb_lt (x y : Q) : Qltb x y = true <-> (x < y)%Q.
Proof. unfold Qltb, Qlt. apply Z.ltb_lt. Qed.

Lemma to_sec_lt_quarter (d : TVal) :
  (to_sec d < 0.25)%Q <-> (to_nsec d < 250000000)%Z.
Proof.
  unfold to_sec, to_nsec, nano, Qlt; destruct d as [s n]; simpl.
  lia.
Qed.

Lemma fresh_lt (timestamp lct : TVal) :
  fresh timestamp lct = true <-> (to_sec (time_sub timestamp lct) < 0.25)%Q.
Proof. unfold fresh. apply Qltb_lt. Qed.

Lemma fresh_spec (timestamp lct : TVal) :
  fresh timestamp lct = true <->
  (to_nsec timestamp - to_nsec lct < 250000000)%Z.
Proof.
  unfold fresh. rewrite Qltb_lt, to_sec_lt_quarter, to_nsec_time_sub. reflexivity.
Qed.

(** ** The deque *)

Section DequeFacts.
Context {A : Type}.
Implicit Types (d : deque A) (x : A).

Lemma deque_append_maxlen x d : maxlen (deque_append x d) = maxlen d.
Proof. reflexivity. Qed.

Lemma deque_append_len x d :
  deque_len d <= maxlen d ->
  deque_len (deque_append x d) = Nat.min (S (deque_len d)) (maxlen d).
Proof.
  unfold deque_len, deque_append; cbn [items maxlen]. intros Hle.
  rewrite length_app; cbn [length].
  destruct (Nat.ltb_spec (maxlen d) (length (items d) + 1)) as [Hlt|Hge].
  - destruct (items d) as [|y l]; cbn [app tail length] in *.
    + lia.
    + rewrite length_app; cbn [length]. lia.
  - rewrite length_app; cbn [length]. lia.
Qed.

(** Below capacity the item is added at the right end. *)
Lemma deque_append_room x d :
  deque_len d < maxlen d -> items (deque_append x d) = items d ++ [x].
Proof.
  unfold deque_len, deque_append; simpl. intros Hlt.
  rewrite length_app; simpl.
  destruct (Nat.ltb_spec (maxlen d) (length (items d) + 1)); [lia | reflexivity].
Qed.

(** At capacity the oldest item goes and the others keep their order. *)
Lemma deque_append_full x d :
  deque_len d = maxlen d -> 0 < maxlen d ->
  items (deque_append x d) = tail (items d) ++ [x].
Proof.
  unfold deque_len, deque_append; simpl. intros Heq Hpos.
  rewrite length_app; simpl.
  destruct (Nat.ltb_spec (maxlen d) (length (items d) + 1)); [| lia].
  destruct (items d); simpl in *; [lia | reflexivity].
Qed.

(** The new contents are the old ones with the item added, less at most
    the oldest. *)
Lemma deque_append_suffix x d : items (deque_append x d) `suffix_of` items d ++ [x].
Proof.
  unfold deque_append; cbn [items].
  destruct (maxlen d <? length (items d ++ [x])); [|reflexivity].
  destruct (items d ++ [x]) as [|y l]; [reflexivity|].
  exists [y]. reflexivity.
Qed.

End DequeFacts.


Lemma deque_append_window {A} (x : A) (d : deque A) :
  deque_len d <= maxlen d ->
  items (deque_append x d) = window (maxlen d) (items d ++ [x]).
Proof.
  unfold deque_len, deque_append, window; cbn [items maxlen]. intros Hle.
  rewrite length_app; cbn [length].
  destruct (Nat.ltb_spec (maxlen d) (length (items d) + 1)) as [Hlt|Hge].
  - replace (length (items d) + 1 - maxlen d) with 1 by lia.
    destruct (items d); reflexivity.
  - replace (length (items d) + 1 - maxlen d) with 0 by lia. reflexivity.
Qed.

Lemma window_length {A} (n : nat) (l : list A) :
  length (window n l) = Nat.min (length l) n.
Proof. unfold window. rewrite length_drop. lia. Qed.

Lemma window_all {A} (n : nat) (l : list A) : length l <= n -> window n l = l.
Proof. intros Hle. unfold window. replace (length l - n) with 0 by lia. reflexivity. Qed.

Lemma window_app {A} (n : nat) (l r : list A) :
  window n (window n l ++ r) = window n (l ++ r).
Proof.
  destruct (Nat.le_gt_cases (length l) n) as [Hle|Hgt].
  - rewrite (window_all n l Hle). reflexivity.
  - unfold window. rewrite !length_app, length_drop.
    replace (length l - (length l - n) + length r - n) with (length r) by lia.
    replace (length l + length r - n) with ((length l - n) + length r) by lia.
    rewrite <- drop_drop. rewrite (drop_app_le l r) by lia. reflexivity.
Qed.

(** A run of appends leaves the last [maxlen] items, in order. *)
Lemma deque_appends_window {A} (xs : list A) (d : deque A) :
  deque_len d <= maxlen d ->
  let d' := fold_left (fun acc x => deque_append x acc) xs d in
  maxlen d' = maxlen d /\ items d' = window (maxlen d) (items d ++ xs).
Proof.
  revert d. induction xs as [|x xs IH]; intros d Hle; cbn [fold_left].
  - split; [reflexivity|]. rewrite app_nil_r. symmetry. apply window_all, Hle.
  - destruct (IH (deque_append x d)) as [Hm Hi].
    { rewrite deque_append_len by exact Hle. cbn [deque_append maxlen]. lia. }
    cbv zeta. rewrite Hm, Hi. split; [reflexivity|].
    rewrite deque_append_window by exact Hle.
    cbn [deque_append maxlen]. rewrite window_app, <- app_assoc. reflexivity.
Qed.

Lemma window_full_push {A} (n : nat) (l : list A) (x : A) :
  length l = n -> 0 < n -> window n (l ++ [x]) = tail l ++ [x].
Proof.
  intros Hl Hn. unfold window. rewrite length_app. cbn [length].
  replace (length l + 1 - n) with 1 by lia.
  destruct l; [cbn in Hl; lia | reflexivity].
Qed.

(** ** The weighted average *)

Section AverageFacts.
Context {F : Type} `{Float64 F}.

Lemma fold_vadd_theta (r : list (Gaze F)) (g : Gaze F) :
  theta (fold_left vadd r g) = fold_left fadd (map theta r) (theta g).
Proof. revert g. induction r as [|x r IH]; intros g; [reflexivity|]. apply IH. Qed.

Lemma fold_vadd_phi (r : list (Gaze F)) (g : Gaze F) :
  phi (fold_left vadd r g) = fold_left fadd (map phi r) (phi g).
Proof. revert g. induction r as [|x r IH]; intros g; [reflexivity|]. apply IH. Qed.

Lemma zip_scale_theta (a : list (Gaze F)) (w : list F) :
  map theta (zip_with vscale a w) = zip_with fmul w (map theta a).
Proof.
  revert w. induction a as [|x a IH]; intros [|y w]; cbn; try reflexivity.
  rewrite IH. f_equal. apply fmul_comm.
Qed.

Lemma zip_scale_phi (a : list (Gaze F)) (w : list F) :
  map phi (zip_with vscale a w) = zip_with fmul w (map phi a).
Proof.
  revert w. induction a as [|x a IH]; intros [|y w]; cbn; try reflexivity.
  rewrite IH. f_equal. apply fmul_comm.
Qed.

Lemma np_sum_axis0_theta (rows : list (Gaze F)) :
  theta (np_sum_axis0 rows) = np_sum (map theta rows).
Proof. destruct rows; [reflexivity|]. apply fold_vadd_theta. Qed.

Lemma np_sum_axis0_phi (rows : list (Gaze F)) :
  phi (np_sum_axis0 rows) = np_sum (map phi rows).
Proof. destruct rows; [reflexivity|]. apply fold_vadd_phi. Qed.

(** numpy's average is the formula of the design document on each
    component. *)
Lemma np_average_smoothed (a : list (Gaze F)) (w : list F) :
  np_average a w = smoothed w a.
Proof.
  unfold np_average, smoothed, weighted_mean, vdiv; cbn [theta phi].
  rewrite np_sum_axis0_theta, np_sum_axis0_phi, zip_scale_theta, zip_scale_phi.
  reflexivity.
Qed.

End AverageFacts.

Lemma divides_by_zero_spec (now_ last : TVal) :
  divides_by_zero now_ last = true <-> to_nsec now_ = to_nsec last.
Proof.
  unfold divides_by_zero. rewrite Qeq_bool_iff.
  pose proof (to_nsec_time_sub now_ last) as Hsub.
  assert (Hd : forall d, (to_sec d == 0)%Q <-> to_nsec d = 0%Z).
  { intros [s n]. unfold to_sec, to_nsec, nano, Qeq; simpl. lia. }
  rewrite Hd. lia.
Qed.

(** ** One call of [compute_eye_gaze_estimation] *)

Section CallFacts.
Context {F Image Input Rot Euler : Type}.
Context `{Float64 F} `{Collaborators F Image Input Rot Euler}.

Local Abbreviation State := (@State F Image Input Rot Euler).
Local Abbreviation Env := (@Env Image Rot).
Local Abbreviation Event := (@Event F Image Input Rot Euler).

Lemma emissions_app sid (tr1 tr2 : list Event) :
  emissions sid (tr1 ++ tr2) = emissions sid tr1 ++ emissions sid tr2.
Proof. apply omap_app. Qed.

Lemma estimator_calls_app (tr1 tr2 : list Event) :
  estimator_calls (tr1 ++ tr2) = estimator_calls tr1 ++ estimator_calls tr2.
Proof. apply omap_app. Qed.

Lemma handed_on_app (tr1 tr2 : list Event) :
  handed_on (tr1 ++ tr2) = handed_on tr1 ++ handed_on tr2.
Proof. apply omap_app. Qed.

Lemma broadcasts_app (tr1 tr2 : list Event) :
  broadcasts (tr1 ++ tr2) = broadcasts tr1 ++ broadcasts tr2.
Proof. apply omap_app. Qed.

Lemma printed_app (tr1 tr2 : list Event) :
  printed (tr1 ++ tr2) = printed tr1 ++ printed tr2.
Proof. apply omap_app. Qed.

Lemma published_images_app (tr1 tr2 : list Event) :
  published_images (tr1 ++ tr2) = published_images tr1 ++ published_images tr2.
Proof. apply omap_app. Qed.

Lemma compute_stale (env : Env) sid ts (ir il : Input) (s : State) delta :
  gate env sid ts = RejectStale delta ->
  compute_eye_gaze_estimation env sid ts ir il s =
    (inr None,
     MkState (gaze_buffer_c s) (time_last s)
             (trace s ++ [Diagnostic (TooBigTimeDiff delta)])).
Proof.
  unfold gate, compute_eye_gaze_estimation, try_block.
  unfold bind at 1. unfold lift, raise, ret.
  destruct (getLatestCommonTime env sid) as [e|lct]; [discriminate|].
  destruct (fresh ts lct).
  - destruct (lookupTransform env sid lct) as [e|rot]; [discriminate|].
    destruct (get_phi_theta_from_euler (limit_yaw rot)); discriminate.
  - intros [= <-]. reflexivity.
Qed.

Lemma compute_lookup (env : Env) sid ts (ir il : Input) (s : State) e :
  gate env sid ts = RejectLookup e ->
  compute_eye_gaze_estimation env sid ts ir il s =
    (inr None,
     MkState (gaze_buffer_c s) (time_last s)
             (trace s ++ [Diagnostic (PrintedException e)])).
Proof.
  unfold gate, compute_eye_gaze_estimation, try_block.
  unfold bind at 1. unfold lift, raise, ret.
  destruct (getLatestCommonTime env sid) as [e'|lct].
  - intros [= <-]. reflexivity.
  - destruct (fresh ts lct); [|discriminate].
    unfold bind at 1.
    destruct (lookupTransform env sid lct) as [e'|rot].
    + intros [= <-]. reflexivity.
    + destruct (get_phi_theta_from_euler (limit_yaw rot)); discriminate.
Qed.

Lemma compute_accept (env : Env) sid ts (ir il : Input) (s : State) euler hp d :
  gate env sid ts = Accept euler hp ->
  gaze_buffer_c s !! sid = Some d ->
  compute_eye_gaze_estimation env sid ts ir il s =
    accepted_outcome env sid ts ir il euler hp d s.
Proof.
  unfold gate, accepted_outcome, compute_eye_gaze_estimation, try_block.
  intros Hg Hd. unfold bind at 1. unfold lift, ret, raise.
  destruct (getLatestCommonTime env sid) as [e|lct]; [discriminate|].
  destruct (fresh ts lct); [|discriminate].
  unfold bind at 1.
  destruct (lookupTransform env sid lct) as [e|rot]; [discriminate|].
  destruct (get_phi_theta_from_euler (limit_yaw rot)) as [ph th].
  injection Hg as <- <-.
  unfold call_estimate_gaze_twoeyes, buffer_append, getitem,
    set_buffers, emit, bind, ret; cbn [gaze_buffer_c trace time_last].
  rewrite Hd; cbn [gaze_buffer_c trace time_last]. rewrite lookup_insert_eq.
  rewrite <- !app_assoc. cbn [app].
  match goal with |- context [Nat.eqb ?a ?b] => destruct (Nat.eqb a b) end;
    [|reflexivity].
  unfold publish_gaze, report_rate, after_broadcast, get_time_last, set_time_last,
    bind, emit, raise, ret; cbn [gaze_buffer_c trace time_last].
  fold (quaternion_of
          (np_average (items (deque_append (estimate_gaze_twoeyes il ir (th, ph)) d))
             average_weights)).
  rewrite <- !app_assoc. cbn [app].
  destruct (sendTransform env _ ts sid); [reflexivity|].
  cbn [gaze_buffer_c trace time_last].
  destruct (divides_by_zero _ _); cbn [gaze_buffer_c trace time_last];
    rewrite <- ?app_assoc; reflexivity.
Qed.

(** Without a buffer for the subject line 83 raises [KeyError], after
    the gaze network has been asked. *)
Lemma compute_accept_missing (env : Env) sid ts (ir il : Input) (s : State) euler hp :
  gate env sid ts = Accept euler hp ->
  gaze_buffer_c s !! sid = None ->
  compute_eye_gaze_estimation env sid ts ir il s =
    (inl (KeyError sid),
     MkState (gaze_buffer_c s) (time_last s)
             (trace s ++ [Diagnostic (EulerAnglesHead euler);
                          EstimateGazeTwoEyes il ir hp])).
Proof.
  unfold gate, compute_eye_gaze_estimation, try_block.
  intros Hg Hd. unfold bind at 1. unfold lift, ret, raise.
  destruct (getLatestCommonTime env sid) as [e|lct]; [discriminate|].
  destruct (fresh ts lct); [|discriminate].
  unfold bind at 1.
  destruct (lookupTransform env sid lct) as [e|rot]; [discriminate|].
  destruct (get_phi_theta_from_euler (limit_yaw rot)) as [ph th].
  injection Hg as <- <-.
  unfold call_estimate_gaze_twoeyes, buffer_append, getitem,
    set_buffers, emit, bind, ret; cbn [gaze_buffer_c trace time_last].
  rewrite Hd. rewrite <- !app_assoc. reflexivity.
Qed.

Lemma average_weights_length : length (average_weights (F:=F)) = 5.
Proof. reflexivity. Qed.

(** The three ways a call can go. *)
Lemma gate_cases (env : Env) sid ts :
  (exists euler hp, gate env sid ts = Accept euler hp) \/
  (exists delta, gate env sid ts = RejectStale delta) \/
  (exists e, gate env sid ts = RejectLookup e).
Proof. destruct (gate env sid ts); eauto. Qed.

End CallFacts.

(** ** One pass of the loop body *)

Section LoopFacts.
Context {F Image Input Rot Euler : Type}.
Context `{Float64 F} `{Collaborators F Image Input Rot Euler}.

Local Abbreviation State := (@State F Image Input Rot Euler).
Local Abbreviation Env := (@Env Image Rot).
Local Abbreviation Event := (@Event F Image Input Rot Euler).
Local Abbreviation Item := (SubjectId * @SubjectImages Image)%type.

Lemma accepted_outcome_buffers (env : Env) sid ts (ir il : Input) (s : State)
    euler hp d :
  gaze_buffer_c (snd (accepted_outcome env sid ts ir il euler hp d s)) =
    <[sid := deque_append (estimate_gaze_twoeyes il ir hp) d]> (gaze_buffer_c s).
Proof. outcome_cases; reflexivity. Qed.

(** The accepted call, read off field by field. *)
Lemma accepted_outcome_facts (env : Env) sid ts (ir il : Input) (s : State)
    euler hp d :
  let r := accepted_outcome env sid ts ir il euler hp d s in
  let d' := deque_append (estimate_gaze_twoeyes il ir hp) d in
  let med := np_average (items d') average_weights in
  gaze_buffer_c (snd r) = <[sid := d']> (gaze_buffer_c s) /\
  emissions sid (trace (snd r)) =
    emissions sid (trace s) ++ (if deque_len d' =? 5 then [med] else []) /\
  fst r =
    (if deque_len d' =? 5 then
       match sendTransform env (quaternion_of med) ts sid with
       | None =>
           if divides_by_zero (now env sid 1) (time_last s)
           then inl ZeroDivisionError
           else inr (Some med)
       | Some _ => inr None
       end
     else inr None).
Proof.
  cbv zeta. split; [apply accepted_outcome_buffers|].
  rewrite (Nat.eqb_sym _ 5). change 5 with (length (average_weights (F:=F))).
  outcome_cases; rewrite ?Hsend, ?Hzero;
    (split; [|reflexivity]);
    rewrite !emissions_app; cbn [emissions omap list_omap emitted_for];
    rewrite ?decide_True by reflexivity; rewrite ?app_nil_r; reflexivity.
Qed.

Lemma accepted_outcome_other (env : Env) sid ts (ir il : Input) (s : State)
    euler hp d sid' :
  sid' ≠ sid ->
  emissions sid' (trace (snd (accepted_outcome env sid ts ir il euler hp d s))) =
    emissions sid' (trace s).
Proof.
  intros Hne.
  outcome_cases;
    rewrite !emissions_app; cbn [emissions omap list_omap emitted_for];
    rewrite ?decide_False by congruence; rewrite ?app_nil_r; reflexivity.
Qed.

(** A call for one subject leaves the others alone. *)
Lemma compute_other (env : Env) sid ts (ir il : Input) (s : State) sid' :
  sid' ≠ sid ->
  let s' := snd (compute_eye_gaze_estimation env sid ts ir il s) in
  gaze_buffer_c s' !! sid' = gaze_buffer_c s !! sid' /\
  emissions sid' (trace s') = emissions sid' (trace s).
Proof.
  intros Hne s'. subst s'.
  destruct (gate env sid ts) as [euler hp|delta|e] eqn:Hg.
  - destruct (gaze_buffer_c s !! sid) as [d|] eqn:Hd.
    + rewrite (compute_accept _ _ _ _ _ _ _ _ _ Hg Hd).
      rewrite accepted_outcome_buffers, lookup_insert_ne by congruence.
      split; [reflexivity|]. apply accepted_outcome_other, Hne.
    + rewrite (compute_accept_missing _ _ _ _ _ _ _ _ Hg Hd).
      cbn [snd gaze_buffer_c trace].
      split; [reflexivity|]. rewrite emissions_app. apply app_nil_r.
  - rewrite (compute_stale _ _ _ _ _ _ _ Hg). cbn [snd gaze_buffer_c trace].
    split; [reflexivity|]. rewrite emissions_app. apply app_nil_r.
  - rewrite (compute_lookup _ _ _ _ _ _ _ Hg). cbn [snd gaze_buffer_c trace].
    split; [reflexivity|]. rewrite emissions_app. apply app_nil_r.
Qed.

(** Lines 111-112 leave the subject with the buffer it had, or with a
    new one. *)
Lemma ensure_buffer_eq (s : State) sid :
  ensure_buffer sid s =
    (inr tt, MkState (<[sid := buffer_of s sid]> (gaze_buffer_c s))
                     (time_last s) (trace s)).
Proof.
  unfold ensure_buffer, buffer_of, set_buffers.
  destruct (decide (sid ∈ dom (gaze_buffer_c s))) as [Hin|Hout].
  - apply elem_of_dom in Hin as [d Hd]. rewrite Hd.
    rewrite (insert_id _ _ _ Hd). destruct s; reflexivity.
  - apply not_elem_of_dom in Hout. rewrite Hout. reflexivity.
Qed.

(** The pass is the call on the state lines 111-112 leave, and the
    image composed so far only matters for the image returned. *)
Lemma loop_body_eq (env : Env) ts acc (item : Item) (s : State) :
  loop_body env ts acc item s =
    let r := compute_eye_gaze_estimation env (fst item) ts
               (input_from_image (right (snd item)))
               (input_from_image (left (snd item)))
               (MkState (<[fst item := buffer_of s (fst item)]> (gaze_buffer_c s))
                        (time_last s) (trace s)) in
    (match fst r with
     | inl e => inl e
     | inr gaze_est => inr (item_image acc item gaze_est)
     end, snd r).
Proof.
  destruct item as [sid imgs]. unfold loop_body. unfold bind at 1.
  rewrite ensure_buffer_eq. cbn [fst snd]. unfold bind.
  destruct (compute_eye_gaze_estimation env sid ts _ _ _) as [[e|[g|]] s'];
    reflexivity.
Qed.

Lemma loop_body_reject (env : Env) ts acc (item : Item) (s : State) dg :
  rejection env ts item = Some dg ->
  loop_body env ts acc item s =
    (inr acc,
     MkState (<[fst item := buffer_of s (fst item)]> (gaze_buffer_c s))
             (time_last s) (trace s ++ [Diagnostic dg])).
Proof.
  unfold rejection. intros Hrej. rewrite loop_body_eq. cbv zeta.
  destruct (gate env (fst item) ts) as [euler hp|delta|e] eqn:Hg; [discriminate| |];
    injection Hrej as <-.
  - rewrite (compute_stale _ _ _ _ _ _ _ Hg). reflexivity.
  - rewrite (compute_lookup _ _ _ _ _ _ _ Hg). reflexivity.
Qed.

Lemma loop_body_accept (env : Env) ts acc (item : Item) (s : State) euler hp :
  gate env (fst item) ts = Accept euler hp ->
  loop_body env ts acc item s =
    let r := accepted_outcome env (fst item) ts
               (input_from_image (right (snd item)))
               (input_from_image (left (snd item))) euler hp
               (buffer_of s (fst item))
               (MkState (<[fst item := buffer_of s (fst item)]> (gaze_buffer_c s))
                        (time_last s) (trace s)) in
    (match fst r with
     | inl e => inl e
     | inr gaze_est => inr (item_image acc item gaze_est)
     end, snd r).
Proof.
  intros Hg. rewrite loop_body_eq. cbv zeta.
  rewrite (compute_accept _ _ _ _ _ _ _ _ (buffer_of s (fst item)) Hg);
    [reflexivity|].
  cbn [gaze_buffer_c]. apply lookup_insert_eq.
Qed.

Lemma rejection_cases (env : Env) ts (item : Item) :
  (exists euler hp, gate env (fst item) ts = Accept euler hp) \/
  (exists dg, rejection env ts item = Some dg /\
              raw_estimate env ts item = None /\
              estimator_call env ts item = None).
Proof.
  unfold rejection, raw_estimate, estimator_call.
  destruct (gate env (fst item) ts); eauto.
Qed.

(** What a pass does to the dictionary. *)
Lemma loop_body_buffers (env : Env) ts acc (item : Item) (s : State) :
  gaze_buffer_c (snd (loop_body env ts acc item s)) =
    <[fst item := item_buffer env ts item (buffer_of s (fst item))]>
      (gaze_buffer_c s).
Proof.
  destruct (rejection_cases env ts item) as [(euler & hp & Hg)|(dg & Hr & Hraw & _)].
  - rewrite (loop_body_accept _ _ _ _ _ _ _ Hg). cbv zeta. cbn [snd].
    rewrite accepted_outcome_buffers. cbn [gaze_buffer_c].
    rewrite insert_insert_eq. unfold item_buffer, raw_estimate. rewrite Hg.
    reflexivity.
  - rewrite (loop_body_reject _ _ _ _ _ _ Hr). cbn [snd gaze_buffer_c].
    unfold item_buffer. rewrite Hraw. reflexivity.
Qed.

(** What a pass adds to the calls made and the lines printed. *)
Lemma loop_body_events (env : Env) ts acc (item : Item) (s : State) :
  exists tr,
    trace (snd (loop_body env ts acc item s)) = trace s ++ tr /\
    estimator_calls tr = option_list (estimator_call env ts item) /\
    handed_on tr =
      map (fun g => (g, ts, fst item))
          (option_list (item_smoothed env ts item (buffer_of s (fst item)))) /\
    broadcasts tr = map as_transform (handed_on tr) /\
    published_images tr = [].
Proof.
  destruct (rejection_cases env ts item)
    as [(euler & hp & Hg)|(dg & Hr & Hraw & Hcall)].
  - rewrite (loop_body_accept _ _ _ _ _ _ _ Hg). cbv zeta. cbn [snd].
    unfold estimator_call, item_smoothed, item_buffer, raw_estimate. rewrite Hg.
    outcome_cases; (eexists; split; [rewrite <- ?app_assoc; reflexivity|]);
      repeat split; reflexivity.
  - rewrite (loop_body_reject _ _ _ _ _ _ Hr). cbn [snd trace].
    exists [Diagnostic dg]. unfold item_smoothed. rewrite Hraw, Hcall.
    repeat split; reflexivity.
Qed.

Lemma emissions_handed_on sid (tr : list Event) :
  emissions sid tr =
    omap (fun c : Gaze F * TVal * SubjectId =>
            if decide (snd c = sid) then Some (fst (fst c)) else None)
         (handed_on tr).
Proof.
  unfold emissions, handed_on.
  induction tr as [|ev tr IH]; [reflexivity|].
  destruct ev; cbn [omap list_omap emitted_for]; try exact IH.
  cbn [fst snd]. destruct (decide _); rewrite IH; reflexivity.
Qed.

(** The smoothed estimates a pass hands on. *)
Lemma loop_body_emissions (env : Env) ts acc (item : Item) (s : State) sid :
  emissions sid (trace (snd (loop_body env ts acc item s))) =
    emissions sid (trace s) ++
    if decide (fst item = sid)
    then option_list (item_smoothed env ts item (buffer_of s (fst item)))
    else [].
Proof.
  destruct (loop_body_events env ts acc item s) as (tr & Htr & _ & Hh & _).
  rewrite Htr, emissions_app. f_equal.
  rewrite emissions_handed_on, Hh.
  destruct (item_smoothed env ts item (buffer_of s (fst item))) as [g|];
    [change (option_list (Some g)) with [g] | change (option_list None) with (@nil (Gaze F))];
    cbn [map omap list_omap fst snd];
    destruct (decide (fst item = sid)); reflexivity.
Qed.

(** Once the gate has let the subject through, the call prints the
    Euler angles and asks the gaze network, once, whatever comes
    after. *)
Lemma compute_accept_events (env : Env) sid ts (ir il : Input) (s : State) euler hp :
  gate env sid ts = Accept euler hp ->
  exists tr,
    trace (snd (compute_eye_gaze_estimation env sid ts ir il s)) =
      trace s ++ [Diagnostic (EulerAnglesHead euler);
                  EstimateGazeTwoEyes il ir hp] ++ tr /\
    estimator_calls tr = [].
Proof.
  intros Hg. destruct (gaze_buffer_c s !! sid) as [d|] eqn:Hd.
  - rewrite (compute_accept _ _ _ _ _ _ _ _ _ Hg Hd).
    outcome_cases;
      (eexists; split;
       [rewrite <- ?app_assoc; cbn [app]; try reflexivity;
        rewrite ?app_nil_r; reflexivity
       | reflexivity]).
  - rewrite (compute_accept_missing _ _ _ _ _ _ _ _ Hg Hd). cbn [snd trace].
    exists []. split; reflexivity.
Qed.

Lemma loop_body_accept_events (env : Env) ts acc (item : Item) (s : State) euler hp :
  gate env (fst item) ts = Accept euler hp ->
  exists tr,
    trace (snd (loop_body env ts acc item s)) =
      trace s ++ [Diagnostic (EulerAnglesHead euler);
                  EstimateGazeTwoEyes (input_from_image (left (snd item)))
                                      (input_from_image (right (snd item))) hp] ++ tr /\
    estimator_calls tr = [].
Proof.
  intros Hg. rewrite loop_body_eq. cbv zeta. cbn [snd].
  apply (compute_accept_events env (fst item) ts _ _
           (MkState (<[fst item := buffer_of s (fst item)]> (gaze_buffer_c s))
                    (time_last s) (trace s)) euler hp Hg).
Qed.

End LoopFacts.

(** ** Runs of passes, one callback, and a run of callbacks *)

Section RunFacts.
Context {F Image Input Rot Euler : Type}.
Context `{Float64 F} `{Collaborators F Image Input Rot Euler}.

Local Abbreviation State := (@State F Image Input Rot Euler).
Local Abbreviation Env := (@Env Image Rot).
Local Abbreviation Event := (@Event F Image Input Rot Euler).
Local Abbreviation Msg := (@Msg Image).
Local Abbreviation Item := (SubjectId * @SubjectImages Image)%type.
Local Abbreviation Pass := (Env * TVal * Item)%type.

Lemma run_cons (p : Pass) ps (s : State) : run (p :: ps) s = run ps (pass p s).
Proof. reflexivity. Qed.

Lemma pushes_app sid (ps qs : list Pass) :
  pushes sid (ps ++ qs) = pushes (F:=F) sid ps ++ pushes sid qs.
Proof. apply omap_app. Qed.

Lemma pass_buffers (p : Pass) (s : State) :
  gaze_buffer_c (pass p s) =
    <[fst (snd p) := item_buffer (fst (fst p)) (snd (fst p)) (snd p)
                       (buffer_of s (fst (snd p)))]> (gaze_buffer_c s).
Proof. apply loop_body_buffers. Qed.

Lemma pass_emissions (p : Pass) (s : State) sid :
  emissions sid (trace (pass p s)) =
    emissions sid (trace s) ++
    if decide (fst (snd p) = sid)
    then option_list (item_smoothed (fst (fst p)) (snd (fst p)) (snd p)
                        (buffer_of s (fst (snd p))))
    else [].
Proof. apply loop_body_emissions. Qed.

(** The state a pass leaves does not depend on the image composed so
    far, nor does whether it raises. *)
Lemma loop_body_pass (env : Env) ts acc (item : Item) (s : State) :
  snd (loop_body env ts acc item s) = pass (env, ts, item) s /\
  raises (fst (loop_body env ts acc item s)) =
    raises (fst (loop_body env ts None item s)).
Proof.
  unfold pass. cbn [fst snd]. rewrite !loop_body_eq. cbv zeta. cbn [fst snd].
  split; [reflexivity|].
  destruct (fst (compute_eye_gaze_estimation _ _ _ _ _ _)); reflexivity.
Qed.

Lemma for_subjects_cons (env : Env) ts (item : Item) rest acc (s : State) :
  for_subjects env ts (item :: rest) acc s =
    match loop_body env ts acc item s with
    | (inr img, s') => for_subjects env ts rest img s'
    | (inl e, s') => (inl e, s')
    end.
Proof. reflexivity. Qed.

(** The loop leaves the state its started passes leave. *)
Lemma for_subjects_run (env : Env) ts (l : list Item) acc (s : State) :
  snd (for_subjects env ts l acc s) = run (passes env ts l s) s.
Proof.
  revert acc s. induction l as [|item l IH]; intros acc s; [reflexivity|].
  rewrite for_subjects_cons. cbn [passes]. rewrite run_cons.
  destruct (loop_body_pass env ts acc item s) as [Hs Hr].
  destruct (loop_body env ts acc item s) as [[e|img] s'];
    destruct (loop_body env ts None item s) as [[e0|img0] s0] eqn:E0;
    cbn [fst snd raises] in *; try discriminate.
  - rewrite Hs. reflexivity.
  - rewrite IH, Hs. unfold pass. cbn [fst snd]. rewrite E0. reflexivity.
Qed.

Lemma passes_elem (env : Env) ts (l : list Item) (s : State) (p : Pass) :
  p ∈ passes env ts l s -> fst (fst p) = env /\ snd (fst p) = ts /\ snd p ∈ l.
Proof.
  revert s. induction l as [|item l IH]; intros s Hin; [inversion Hin|].
  cbn [passes] in Hin. apply elem_of_cons in Hin as [->|Hin].
  - cbn. repeat split. apply elem_of_cons. auto.
  - destruct (loop_body env ts None item s) as [[e|img] s']; [inversion Hin|].
    destruct (IH _ Hin) as (? & ? & ?). repeat split; auto.
    apply elem_of_cons. auto.
Qed.

(** When the loop returns, every item had its pass. *)
Lemma for_subjects_returns (env : Env) ts (l : list Item) acc (s : State) img :
  fst (for_subjects env ts l acc s) = inr img ->
  passes env ts l s = map (fun item => (env, ts, item)) l.
Proof.
  revert acc s. induction l as [|item l IH]; intros acc s Hr; [reflexivity|].
  rewrite for_subjects_cons in Hr. cbn [passes map].
  destruct (loop_body_pass env ts acc item s) as [Hs Hi].
  destruct (loop_body env ts acc item s) as [[e|img1] s'];
    destruct (loop_body env ts None item s) as [[e0|img0] s0] eqn:E0;
    cbn [fst snd raises] in *; try discriminate.
  f_equal. unfold pass in Hs. cbn [fst snd] in Hs. rewrite E0 in Hs.
  cbn [snd] in Hs. subst s0. eapply IH, Hr.
Qed.


(** One callback: the state the started passes leave, and the image. *)
Lemma image_callback_run (env : Env) (m : Msg) (s : State) :
  let s1 := run (passes env (stamp m) (subjects m) s) s in
  let s' := snd (image_callback env m s) in
  gaze_buffer_c s' = gaze_buffer_c s1 /\
  time_last s' = time_last s1 /\
  trace s' =
    trace s1 ++
    match fst (for_subjects env (stamp m) (subjects m) None s) with
    | inr (Some i) => [PublishGazeImage i]
    | _ => []
    end.
Proof.
  cbv zeta. unfold image_callback, bind.
  rewrite <- (for_subjects_run env (stamp m) (subjects m) None s).
  destruct (for_subjects env (stamp m) (subjects m) None s) as [[e|[i|]] s1];
    cbn [fst snd emit ret gaze_buffer_c time_last trace];
    try destruct (publish env i);
    cbn [fst snd raise ret gaze_buffer_c time_last trace];
    rewrite ?app_nil_r; repeat split; reflexivity.
Qed.

Lemma callback_emissions (env : Env) (m : Msg) (s : State) sid :
  emissions sid (trace (snd (image_callback env m s))) =
    emissions sid (trace (run (passes env (stamp m) (subjects m) s) s)).
Proof.
  destruct (image_callback_run env m s) as (_ & _ & Ht). rewrite Ht.
  rewrite emissions_app.
  destruct (fst (for_subjects env (stamp m) (subjects m) None s)) as [e|[i|]];
    cbn; apply app_nil_r.
Qed.

Lemma callback_samples (env : Env) (m : Msg) (s : State) sid :
  samples (snd (image_callback env m s)) sid =
    samples (run (passes env (stamp m) (subjects m) s) s) sid.
Proof.
  destruct (image_callback_run env m s) as (Hb & _ & _).
  unfold samples. rewrite Hb. reflexivity.
Qed.

(** Buffers stay within capacity. *)
Lemma wf_deque_new : wf_deque (F:=F) (deque_new 5).
Proof. split; cbn; lia. Qed.

Lemma wf_deque_append (x : Gaze F) d : wf_deque d -> wf_deque (deque_append x d).
Proof.
  intros [Hm Hl]. split; [exact Hm|].
  rewrite deque_append_len by lia. rewrite Hm. lia.
Qed.

Lemma wf_buffer_of (s : State) sid : wf_state s -> wf_deque (buffer_of s sid).
Proof.
  intros Hs. unfold buffer_of.
  destruct (gaze_buffer_c s !! sid) eqn:E; [eapply Hs, E | apply wf_deque_new].
Qed.

Lemma wf_item_buffer (env : Env) ts (item : Item) d :
  wf_deque d -> wf_deque (item_buffer env ts item d).
Proof.
  intros Hd. unfold item_buffer.
  destruct (raw_estimate env ts item); auto using wf_deque_append.
Qed.

Lemma pass_wf (p : Pass) (s : State) : wf_state s -> wf_state (pass p s).
Proof.
  intros Hs sid d. rewrite pass_buffers.
  destruct (decide (fst (snd p) = sid)) as [<-|Hne].
  - rewrite lookup_insert_eq. intros [= <-].
    apply wf_item_buffer, wf_buffer_of, Hs.
  - rewrite lookup_insert_ne by assumption. apply Hs.
Qed.

Lemma run_wf (ps : list Pass) (s : State) : wf_state s -> wf_state (run ps s).
Proof.
  revert s. induction ps as [|p ps IH]; intros s Hs; [exact Hs|].
  rewrite run_cons. apply IH, pass_wf, Hs.
Qed.

Lemma callback_wf (env : Env) (m : Msg) (s : State) :
  wf_state s -> wf_state (snd (image_callback env m s)).
Proof.
  intros Hs sid d. destruct (image_callback_run env m s) as (Hb & _ & _).
  rewrite Hb. apply run_wf, Hs.
Qed.

Lemma spin_wf (frames : list (Env * Msg)) (s : State) :
  wf_state s -> wf_state (spin frames s).
Proof.
  revert s. induction frames as [|[env m] frames IH]; intros s Hs; [exact Hs|].
  cbn [spin]. apply IH, callback_wf, Hs.
Qed.

Lemma init_wf t0 : wf_state (init t0 : State).
Proof. intros sid d. cbn. rewrite lookup_empty. discriminate. Qed.

Lemma samples_buffer_of (s : State) sid : samples s sid = items (buffer_of s sid).
Proof. unfold samples, buffer_of. destruct (gaze_buffer_c s !! sid); reflexivity. Qed.

Lemma item_buffer_items (env : Env) ts (item : Item) d :
  wf_deque d ->
  items (item_buffer env ts item d) =
    match raw_estimate env ts item with
    | Some e => window 5 (items d ++ [e])
    | None => items d
    end.
Proof.
  intros [Hm Hl]. unfold item_buffer.
  destruct (raw_estimate env ts item); try reflexivity.
  rewrite deque_append_window by lia. rewrite Hm. reflexivity.
Qed.

Lemma item_smoothed_eq (env : Env) ts (item : Item) d :
  wf_deque d ->
  item_smoothed env ts item d =
    match raw_estimate env ts item with
    | Some e =>
        let b := window 5 (items d ++ [e]) in
        if length (average_weights (F:=F)) =? length b
        then Some (np_average b average_weights) else None
    | None => None
    end.
Proof.
  intros Hd. unfold item_smoothed, deque_len.
  rewrite (item_buffer_items env ts item d Hd).
  destruct (raw_estimate env ts item); reflexivity.
Qed.

(** One pass, seen from one subject: the buffer slides over the raw
    estimate pushed for it, if any. *)
Lemma pass_samples (p : Pass) (s : State) sid :
  wf_state s ->
  samples (pass p s) sid = window 5 (samples s sid ++ pushes sid [p]).
Proof.
  intros Hs. unfold samples at 1. rewrite pass_buffers.
  unfold pushes. cbn [omap list_omap].
  destruct (decide (fst (snd p) = sid)) as [Heq|Hne].
  - rewrite Heq, lookup_insert_eq. rewrite <- Heq.
    rewrite item_buffer_items by (apply wf_buffer_of, Hs).
    rewrite <- samples_buffer_of.
    destruct (raw_estimate _ _ _); cbn [option_list]; [reflexivity|].
    rewrite app_nil_r. symmetry. apply window_all.
    rewrite samples_buffer_of. apply (wf_buffer_of s _ Hs).
  - rewrite lookup_insert_ne by assumption. rewrite app_nil_r.
    symmetry. apply window_all. change (length (samples s sid) <= 5).
    rewrite samples_buffer_of. apply (wf_buffer_of s _ Hs).
Qed.

Lemma pass_sliding (p : Pass) (s : State) sid :
  wf_state s ->
  emissions sid (trace (pass p s)) =
    emissions sid (trace s) ++
    sliding 5 average_weights (samples s sid) (pushes sid [p]).
Proof.
  intros Hs. rewrite pass_emissions. f_equal.
  unfold pushes. cbn [omap list_omap].
  destruct (decide (fst (snd p) = sid)) as [Heq|Hne]; [|reflexivity].
  rewrite item_smoothed_eq by (apply wf_buffer_of, Hs).
  rewrite <- samples_buffer_of, Heq.
  destruct (raw_estimate _ _ _) as [e|]; [|reflexivity].
  change (option_list (Some e)) with [e].
  cbn [sliding]. cbv zeta. rewrite app_nil_r.
  match goal with |- context [Nat.eqb ?a ?b] => destruct (Nat.eqb a b) end;
    reflexivity.
Qed.

Lemma sliding_window (n : nat) (w : list F) (buf xs : list (Gaze F)) :
  sliding n w (window n buf) xs = sliding n w buf xs.
Proof. destruct xs as [|x xs]; [reflexivity|]. cbn [sliding]. rewrite window_app. reflexivity. Qed.

Lemma sliding_app (n : nat) (w : list F) (buf xs ys : list (Gaze F)) :
  sliding n w buf (xs ++ ys) =
    sliding n w buf xs ++ sliding n w (window n (buf ++ xs)) ys.
Proof.
  revert buf. induction xs as [|x xs IH]; intros buf.
  - cbn [sliding app]. rewrite app_nil_r. symmetry. apply sliding_window.
  - cbn [sliding app]. cbv zeta. rewrite IH, <- app_assoc. do 2 f_equal.
    rewrite window_app, <- app_assoc. reflexivity.
Qed.

(** A run of passes, seen from one subject: its buffer is the last five
    of the raw estimates pushed for it, and the smoothed estimates handed
    on are those of the window sliding over them. *)
Lemma run_samples (ps : list Pass) (s : State) sid :
  wf_state s ->
  samples (run ps s) sid = window 5 (samples s sid ++ pushes sid ps).
Proof.
  revert s. induction ps as [|p ps IH]; intros s Hs.
  - cbn [run fold_left pushes omap list_omap]. rewrite app_nil_r.
    symmetry. apply window_all. rewrite samples_buffer_of.
    apply (wf_buffer_of s sid Hs).
  - rewrite run_cons, IH by (apply pass_wf, Hs).
    rewrite (pass_samples p s sid Hs), window_app, <- app_assoc.
    rewrite <- pushes_app. reflexivity.
Qed.

Lemma run_emissions (ps : list Pass) (s : State) sid :
  wf_state s ->
  emissions sid (trace (run ps s)) =
    emissions sid (trace s) ++
    sliding 5 average_weights (samples s sid) (pushes sid ps).
Proof.
  revert s. induction ps as [|p ps IH]; intros s Hs.
  - cbn [run fold_left pushes omap list_omap sliding]. rewrite app_nil_r.
    reflexivity.
  - rewrite run_cons, IH by (apply pass_wf, Hs).
    rewrite (pass_sliding p s sid Hs), (pass_samples p s sid Hs), <- app_assoc.
    f_equal. change (p :: ps) with ([p] ++ ps).
    rewrite pushes_app, sliding_app. reflexivity.
Qed.

Lemma spin_samples (frames : list (Env * Msg)) (s : State) sid :
  wf_state s ->
  samples (spin frames s) sid =
    window 5 (samples s sid ++ pushes sid (spin_passes frames s)).
Proof.
  revert s. induction frames as [|[env m] frames IH]; intros s Hs.
  - cbn [spin spin_passes pushes omap list_omap]. rewrite app_nil_r.
    symmetry. apply window_all. rewrite samples_buffer_of.
    apply (wf_buffer_of s sid Hs).
  - cbn [spin spin_passes]. rewrite IH by (apply callback_wf, Hs).
    rewrite callback_samples, (run_samples _ s sid Hs).
    rewrite window_app, <- app_assoc, <- pushes_app. reflexivity.
Qed.

Lemma spin_emissions (frames : list (Env * Msg)) (s : State) sid :
  wf_state s ->
  emissions sid (trace (spin frames s)) =
    emissions sid (trace s) ++
    sliding 5 average_weights (samples s sid) (pushes sid (spin_passes frames s)).
Proof.
  revert s. induction frames as [|[env m] frames IH]; intros s Hs.
  - cbn [spin spin_passes pushes omap list_omap sliding]. rewrite app_nil_r.
    reflexivity.
  - cbn [spin spin_passes]. rewrite IH by (apply callback_wf, Hs).
    rewrite callback_emissions, callback_samples.
    rewrite (run_emissions _ s sid Hs), (run_samples _ s sid Hs), <- app_assoc.
    f_equal. rewrite pushes_app, sliding_app. reflexivity.
Qed.

(** Once warm, every push gives one smoothed estimate. *)
Lemma sliding_length (w : list F) (buf xs : list (Gaze F)) :
  length w = 5 -> length buf <= 5 ->
  length (sliding 5 w buf xs) = length xs - (4 - length buf).
Proof.
  intros Hw. revert buf. induction xs as [|x xs IH]; intros buf Hb; [reflexivity|].
  cbn [sliding]. cbv zeta. rewrite length_app, IH, Hw, window_length, length_app;
    [|rewrite window_length; lia].
  cbn [length].
  destruct (Nat.eqb_spec 5 (Nat.min (length buf + 1) 5)); cbn [length]; lia.
Qed.

(** A pass for a subject whose gate rejects leaves the subject's entry
    as it is; so does a pass for another subject. *)
Lemma pass_keeps (p : Pass) (s : State) sid :
  (fst (snd p) = sid -> raw_estimate (fst (fst p)) (snd (fst p)) (snd p) = None) ->
  samples (pass p s) sid = samples s sid /\
  (forall d, gaze_buffer_c s !! sid = Some d ->
             gaze_buffer_c (pass p s) !! sid = Some d).
Proof.
  intros Hrej. unfold samples at 1. rewrite pass_buffers.
  destruct (decide (fst (snd p) = sid)) as [Heq|Hne].
  - unfold item_buffer. rewrite (Hrej Heq), Heq, lookup_insert_eq.
    split; [symmetry; apply samples_buffer_of|].
    intros d Hd. unfold buffer_of. rewrite Hd. reflexivity.
  - rewrite lookup_insert_ne by assumption. split; [reflexivity | auto].
Qed.

Lemma run_keeps (ps : list Pass) (s : State) sid :
  (forall p, p ∈ ps -> fst (snd p) = sid ->
     raw_estimate (fst (fst p)) (snd (fst p)) (snd p) = None) ->
  samples (run ps s) sid = samples s sid /\
  (forall d, gaze_buffer_c s !! sid = Some d ->
             gaze_buffer_c (run ps s) !! sid = Some d).
Proof.
  revert s. induction ps as [|p ps IH]; intros s Hrej; [split; auto|].
  rewrite run_cons.
  destruct (pass_keeps p s sid) as [Hs Hb].
  { apply Hrej. apply elem_of_cons. auto. }
  destruct (IH (pass p s)) as [Hs' Hb'].
  { intros q Hq. apply Hrej. apply elem_of_cons. auto. }
  split; [congruence | auto].
Qed.

Lemma pass_extends (p : Pass) (s : State) : exists tr, trace (pass p s) = trace s ++ tr.
Proof.
  destruct (loop_body_events (fst (fst p)) (snd (fst p)) None (snd p) s)
    as (tr & Htr & _).
  exists tr. exact Htr.
Qed.

Lemma run_extends (ps : list Pass) (s : State) :
  exists tr, trace (run ps s) = trace s ++ tr.
Proof.
  revert s. induction ps as [|p ps IH]; intros s.
  - exists []. cbn. symmetry. apply app_nil_r.
  - rewrite run_cons. destruct (IH (pass p s)) as [tr Htr].
    destruct (pass_extends p s) as [tr0 Htr0].
    exists (tr0 ++ tr). rewrite Htr, Htr0, app_assoc. reflexivity.
Qed.

(** The events of every pass of a run are in the trace, in their
    place. *)
Lemma run_trace_in (ps : list Pass) (s : State) (p : Pass) :
  p ∈ ps ->
  exists s0 tr1 tr2,
    trace s0 = trace s ++ tr1 /\ trace (run ps s) = trace (pass p s0) ++ tr2.
Proof.
  revert s. induction ps as [|q ps IH]; intros s Hin; [inversion Hin|].
  rewrite run_cons. apply elem_of_cons in Hin as [->|Hin].
  - destruct (run_extends ps (pass q s)) as [tr Htr].
    exists s, [], tr. split; [symmetry; apply app_nil_r | exact Htr].
  - destruct (IH (pass q s) Hin) as (s0 & tr1 & tr2 & H1 & H2).
    destruct (pass_extends q s) as [tr0 Htr0].
    exists s0, (tr0 ++ tr1), tr2. split; [|exact H2].
    rewrite H1, Htr0, app_assoc. reflexivity.
Qed.

(** What the callback returns or raises: what its loop raises, or what
    the publisher raises for the image composed. *)
Lemma image_callback_result (env : Env) (m : Msg) (s : State) :
  fst (image_callback env m s) =
    match fst (for_subjects env (stamp m) (subjects m) None s) with
    | inl e => inl e
    | inr (Some i) =>
        match publish env i with
        | Some msg => inl (ROSException msg)
        | None => inr tt
        end
    | inr None => inr tt
    end.
Proof.
  unfold image_callback, bind.
  destruct (for_subjects env (stamp m) (subjects m) None s) as [[e|[i|]] s1];
    cbn [fst emit]; try destruct (publish env i); reflexivity.
Qed.

Lemma callback_passes_all (env : Env) (m : Msg) (s : State) :
  raises (fst (image_callback env m s)) = false ->
  passes env (stamp m) (subjects m) s =
    map (fun item => (env, stamp m, item)) (subjects m).
Proof.
  rewrite image_callback_result.
  destruct (fst (for_subjects env (stamp m) (subjects m) None s)) as [e|img] eqn:E;
    [discriminate|].
  intros _. eapply for_subjects_returns, E.
Qed.

End RunFacts.

(** * The claims *)

Section Claims.
Context {F Image Input Rot Euler : Type}.
Context `{Float64 F} `{Collaborators F Image Input Rot Euler}.

Local Abbreviation State := (@State F Image Input Rot Euler).
Local Abbreviation Env := (@Env Image Rot).
Local Abbreviation Event := (@Event F Image Input Rot Euler).
Local Abbreviation Msg := (@Msg Image).
Local Abbreviation Item := (SubjectId * @SubjectImages Image)%type.

(** C3.  A call of [compute_eye_gaze_estimation] for a frame stamped
    [t_frame], when the latest common time of the head pose is [t_pose]
    and [delta = t_frame - t_pose]: [delta] is below 0.25 s exactly when
    the two stamps are less than 250 000 000 ns apart; the call prints the
    time difference, returns nothing and changes nothing else exactly
    when [delta] is 0.25 s or more, so also at [delta = 0.25 s]; and when
    the pose can be read at [t_pose], the call goes on to ask the gaze
    network with that pose exactly when [delta] is below 0.25 s.  A pose
    that cannot be read is the other way for a fresh frame to be
    skipped. *)
Theorem staleness_gate (env : Env) sid (t_frame t_pose : TVal)
    (ir il : Input) (s : State) :
  getLatestCommonTime env sid = inr t_pose ->
  let delta := time_sub t_frame t_pose in
  let r := compute_eye_gaze_estimation env sid t_frame ir il s in
  let stale :=
    (inr None : exn + option (Gaze F),
     MkState (gaze_buffer_c s) (time_last s)
             (trace s ++ [Diagnostic (TooBigTimeDiff delta)])) in
  ((to_sec delta < 0.25)%Q <->
     (to_nsec t_frame - to_nsec t_pose < 250000000)%Z) /\
  (r = stale <-> (0.25 <= to_sec delta)%Q) /\
  ((to_sec delta == 0.25)%Q -> r = stale) /\
  (forall rot, lookupTransform env sid t_pose = inr rot ->
     let phi_theta := get_phi_theta_from_euler (limit_yaw rot) in
     (estimator_calls (trace (snd r)) =
        estimator_calls (trace s) ++ [(il, ir, (snd phi_theta, fst phi_theta))]
      <-> (to_sec delta < 0.25)%Q)) /\
  (forall e, lookupTransform env sid t_pose = inl e ->
     (to_sec delta < 0.25)%Q ->
     r = (inr None,
          MkState (gaze_buffer_c s) (time_last s)
                  (trace s ++ [Diagnostic (PrintedException e)]))).
Proof.
  intros Hlct delta r stale.
  pose proof (fresh_lt t_frame t_pose) as Hfresh. fold delta in Hfresh.
  assert (Hstale : fresh t_frame t_pose = false -> r = stale).
  { intros Hf. apply compute_stale. unfold gate. rewrite Hlct, Hf. reflexivity. }
  assert (Hge : (0.25 <= to_sec delta)%Q <-> fresh t_frame t_pose = false).
  { split.
    - intros Hle. destruct (fresh t_frame t_pose) eqn:E; [|reflexivity].
      exfalso. apply (Qle_not_lt _ _ Hle). apply Hfresh. reflexivity.
    - intros Hf. apply Qnot_lt_le. intros Hlt. apply Hfresh in Hlt. congruence. }
  assert (Hdiffer : forall (tr1 tr2 : list Event) ev1 ev2,
            ev1 <> ev2 -> trace s ++ ev1 :: tr1 <> trace s ++ ev2 :: tr2).
  { intros tr1 tr2 ev1 ev2 Hne Heq. apply app_inv_head in Heq. congruence. }
  split; [|split; [|split; [|split]]].
  - unfold delta. rewrite to_sec_lt_quarter, to_nsec_time_sub. reflexivity.
  - split; [|intros Hle; apply Hstale, Hge, Hle].
    intros Hr. apply Hge.
    destruct (fresh t_frame t_pose) eqn:Hf; [exfalso|reflexivity].
    destruct (lookupTransform env sid t_pose) as [e|rot] eqn:Hrot.
    + assert (Hg : gate env sid t_frame = RejectLookup e)
        by (unfold gate; rewrite Hlct, Hf, Hrot; reflexivity).
      subst r stale. rewrite (compute_lookup _ _ _ _ _ _ _ Hg) in Hr.
      injection Hr as Hr. revert Hr. apply Hdiffer. discriminate.
    + assert (Hg : gate env sid t_frame =
                   Accept (limit_yaw rot)
                          (snd (get_phi_theta_from_euler (limit_yaw rot)),
                           fst (get_phi_theta_from_euler (limit_yaw rot)))).
      { unfold gate. rewrite Hlct, Hf, Hrot.
        destruct (get_phi_theta_from_euler (limit_yaw rot)); reflexivity. }
      destruct (compute_accept_events env sid t_frame ir il s _ _ Hg)
        as (tr & Htr & _).
      fold r in Htr. rewrite Hr in Htr. cbn [snd trace app] in Htr.
      revert Htr. apply Hdiffer. discriminate.
  - intros Heq. apply Hstale, Hge. rewrite Heq. apply Qle_refl.
  - intros rot Hrot phi_theta. split.
    + intros Hcalls. apply Hfresh.
      destruct (fresh t_frame t_pose) eqn:Hf; [reflexivity|exfalso].
      rewrite (Hstale eq_refl) in Hcalls. unfold stale in Hcalls.
      cbn [snd trace] in Hcalls.
      rewrite estimator_calls_app in Hcalls. apply app_inv_head in Hcalls.
      discriminate.
    + intros Hlt. apply Hfresh in Hlt.
      assert (Hg : gate env sid t_frame =
                   Accept (limit_yaw rot) (snd phi_theta, fst phi_theta)).
      { unfold gate. rewrite Hlct, Hlt, Hrot. subst phi_theta.
        destruct (get_phi_theta_from_euler (limit_yaw rot)); reflexivity. }
      destruct (compute_accept_events env sid t_frame ir il s _ _ Hg)
        as (tr & Htr & Hcalls).
      fold r in Htr. rewrite Htr, !estimator_calls_app, Hcalls. reflexivity.
  - intros e Hrot Hlt. apply Hfresh in Hlt. apply compute_lookup.
    unfold gate. rewrite Hlct, Hlt, Hrot. reflexivity.
Qed.

(** C7.  When the pose lookup fails (either call into the tf listener
    raises one of its exceptions) or the pose is stale, the call returns
    nothing, the dictionary of buffers is exactly what it was, and the
    only thing added to the calls made is the printed diagnostic: the gaze
    network is not asked.  Over a whole callback, the subject's buffer
    holds the samples it held before. *)
Theorem skipped_subject_untouched (env : Env) sid ts (ir il : Input) (s : State) :
  (exists delta, gate env sid ts = RejectStale delta) \/
  (exists e, gate env sid ts = RejectLookup e) ->
  (exists d,
     compute_eye_gaze_estimation env sid ts ir il s =
       (inr None,
        MkState (gaze_buffer_c s) (time_last s) (trace s ++ [Diagnostic d]))) /\
  (forall (m : Msg), wf_msg m -> stamp m = ts ->
     samples (snd (image_callback env m s)) sid = samples s sid /\
     (forall d, gaze_buffer_c s !! sid = Some d ->
                gaze_buffer_c (snd (image_callback env m s)) !! sid = Some d)).
Proof.
  intros Hrej. split.
  - destruct Hrej as [[delta Hg]|[e Hg]]; eexists.
    + apply compute_stale, Hg.
    + apply compute_lookup, Hg.
  - intros m Hm <-.
    destruct (run_keeps (passes env (stamp m) (subjects m) s) s sid) as [Hs Hb].
    { intros p Hp Hsid. apply passes_elem in Hp as (-> & -> & _).
      unfold raw_estimate. rewrite Hsid.
      destruct Hrej as [[delta Hg]|[e Hg]]; rewrite Hg; reflexivity. }
    rewrite callback_samples.
    destruct (image_callback_run env m s) as (Hbufs & _ & _).
    rewrite Hbufs. split; assumption.
Qed.

(** C1, as amended.  For a call that passes the gate: the smoothed
    estimate is computed and handed to [publish_gaze] exactly when the
    buffer holds five samples after the insertion, and then once; when the
    clock has moved since the frame rate was last printed, it is returned
    to the caller exactly when, in addition, the broadcast raises nothing;
    whatever is returned is that smoothed estimate, with five samples in
    the buffer; and with fewer than five samples nothing is returned.
    Over a run of callbacks that starts with an empty buffer for the
    subject, the buffer holds the last five of the raw estimates pushed
    for it, and the number of smoothed estimates handed on is the number
    of pushes minus four: none for the first four pushes, one for the
    fifth and one for each push after it. *)
Theorem emission_threshold :
  (forall (env : Env) sid ts (ir il : Input) (s : State) d euler hp,
     gate env sid ts = Accept euler hp ->
     gaze_buffer_c s !! sid = Some d ->
     let r := compute_eye_gaze_estimation env sid ts ir il s in
     let after := samples (snd r) sid in
     let med := np_average after average_weights in
     emissions sid (trace (snd r)) =
       emissions sid (trace s) ++ (if length after =? 5 then [med] else []) /\
     (to_nsec (now env sid 1) <> to_nsec (time_last s) ->
      (fst r = inr (Some med) <->
         length after = 5 /\ sendTransform env (quaternion_of med) ts sid = None)) /\
     (forall g, fst r = inr (Some g) -> g = med /\ length after = 5) /\
     (length after < 5 -> fst r = inr None)) /\
  (forall (frames : list (Env * Msg)) (s : State) sid,
     wf_state s ->
     samples s sid = [] ->
     let pushed := pushes sid (spin_passes frames s) in
     samples (spin frames s) sid = window 5 pushed /\
     length (emissions sid (trace (spin frames s))) =
       length (emissions sid (trace s)) + (length pushed - 4)).
Proof.
  split.
  - intros env sid ts ir il s d euler hp Hg Hd r after med.
    subst med after r. rewrite (compute_accept _ _ _ _ _ _ _ _ _ Hg Hd).
    destruct (accepted_outcome_facts env sid ts ir il s euler hp d) as (Hb & He & Hr).
    cbv zeta in Hb, He, Hr.
    set (d' := deque_append (estimate_gaze_twoeyes il ir hp) d) in *.
    assert (Hafter : samples (snd (accepted_outcome env sid ts ir il euler hp d s)) sid
                     = items d').
    { unfold samples. rewrite Hb, lookup_insert_eq. reflexivity. }
    rewrite Hafter. fold (deque_len d'). rewrite He, Hr.
    split; [reflexivity|].
    destruct (Nat.eqb_spec (deque_len d') 5) as [Heq|Hne].
    + split; [|split].
      * intros Hclock.
        destruct (divides_by_zero (now env sid 1) (time_last s)) eqn:Hz.
        { apply divides_by_zero_spec in Hz. contradiction. }
        destruct (sendTransform env _ ts sid); split;
          [discriminate | intros [_ [=]] | tauto | reflexivity].
      * intros g. destruct (sendTransform env _ ts sid); [discriminate|].
        destruct (divides_by_zero _ _); [discriminate|].
        intros [= <-]. split; reflexivity || assumption.
      * lia.
    + split; [|split].
      * intros _. split; [discriminate | tauto].
      * discriminate.
      * reflexivity.
  - intros frames s sid Hs Hempty pushed. subst pushed. split.
    + rewrite (spin_samples frames s sid Hs), Hempty. reflexivity.
    + rewrite (spin_emissions frames s sid Hs), length_app, Hempty.
      rewrite sliding_length by (cbn; lia || reflexivity). cbn [length]. lia.
Qed.

(** C2.  Whenever a call returns a smoothed estimate, or hands one to
    [publish_gaze], the subject's buffer holds exactly five samples
    [e0 .. e4], oldest first, which are the last five of the earlier
    samples followed by the raw estimate of this call, and on theta and on
    phi the smoothed estimate is [sum_i w_i * e_i / sum_i w_i] with the
    weights 0.1, 0.125, 0.175, 0.2, 0.4 in this order, the first on the
    oldest sample. *)
Theorem weighted_average (env : Env) sid ts (ir il : Input) (s : State) (g : Gaze F) :
  let r := compute_eye_gaze_estimation env sid ts ir il s in
  fst r = inr (Some g) \/
  emissions sid (trace (snd r)) = emissions sid (trace s) ++ [g] ->
  exists euler hp e0 e1 e2 e3 e4,
    gate env sid ts = Accept euler hp /\
    samples (snd r) sid = [e0; e1; e2; e3; e4] /\
    [e0; e1; e2; e3; e4] `suffix_of`
      samples s sid ++ [estimate_gaze_twoeyes il ir hp] /\
    theta g =
      weighted_mean (map float_literal [0.1; 0.125; 0.175; 0.2; 0.4]%Q)
                    [theta e0; theta e1; theta e2; theta e3; theta e4] /\
    phi g =
      weighted_mean (map float_literal [0.1; 0.125; 0.175; 0.2; 0.4]%Q)
                    [phi e0; phi e1; phi e2; phi e3; phi e4].
Proof.
  intros r Hem. subst r.
  assert (Hnil : forall tr : list Event,
            emissions sid tr = [] ->
            emissions sid (trace s ++ tr) <> emissions sid (trace s) ++ [g]).
  { intros tr Htr. rewrite emissions_app, Htr. intros Heq.
    apply app_inv_head in Heq. discriminate. }
  destruct (gate_cases env sid ts) as [(euler & hp & Hg)|[[delta Hg]|[e Hg]]].
  - destruct (gaze_buffer_c s !! sid) as [d|] eqn:Hd.
    + rewrite (compute_accept _ _ _ _ _ _ _ _ _ Hg Hd) in *.
      destruct (accepted_outcome_facts env sid ts ir il s euler hp d) as (Hb & He & Hr).
      cbv zeta in Hb, He, Hr.
      set (d' := deque_append (estimate_gaze_twoeyes il ir hp) d) in *.
      rewrite He, Hr in Hem.
      assert (Hafter : samples (snd (accepted_outcome env sid ts ir il euler hp d s)) sid
                       = items d').
      { unfold samples. rewrite Hb, lookup_insert_eq. reflexivity. }
      assert (Hbefore : samples s sid = items d).
      { unfold samples. rewrite Hd. reflexivity. }
      destruct (Nat.eqb_spec (deque_len d') 5) as [Heq|Hne].
      * assert (Hg' : g = np_average (items d') average_weights).
        { destruct Hem as [Hem|Hem].
          - destruct (sendTransform env _ ts sid); [discriminate|].
            destruct (divides_by_zero _ _); congruence.
          - apply app_inv_head in Hem. congruence. }
        unfold deque_len in Heq.
        destruct (items d') as [|e0 [|e1 [|e2 [|e3 [|e4 [|? ?]]]]]] eqn:Hi;
          try discriminate.
        exists euler, hp, e0, e1, e2, e3, e4.
        split; [exact Hg|]. split; [rewrite Hafter; reflexivity|].
        split.
        { rewrite Hbefore, <- Hi. apply deque_append_suffix. }
        rewrite Hg', np_average_smoothed. split; reflexivity.
      * destruct Hem as [Hem|Hem]; [discriminate|].
        apply app_inv_head in Hem. discriminate.
    + rewrite (compute_accept_missing _ _ _ _ _ _ _ _ Hg Hd) in Hem.
      cbn [fst snd trace] in Hem. destruct Hem as [Hem|Hem]; [discriminate|].
      exfalso. revert Hem. apply Hnil. reflexivity.
  - rewrite (compute_stale _ _ _ _ _ _ _ Hg) in Hem.
    cbn [fst snd trace] in Hem. destruct Hem as [Hem|Hem]; [discriminate|].
    exfalso. revert Hem. apply Hnil. reflexivity.
  - rewrite (compute_lookup _ _ _ _ _ _ _ Hg) in Hem.
    cbn [fst snd trace] in Hem. destruct Hem as [Hem|Hem]; [discriminate|].
    exfalso. revert Hem. apply Hnil. reflexivity.
Qed.

(** C10.  A pass of the loop body whose push fills the window and whose
    broadcast hits the closed topic: the call returns nothing after
    printing "See ya", so the composite image is left as it was, while the
    subject's buffer keeps the raw estimate of this frame; the next
    accepted call for the subject averages a window that still contains
    it. *)
Theorem publish_failure_keeps_sample (env : Env) ts (item : Item) (s : State)
    d euler hp (acc : option Image) :
  let sid := fst item in
  let input_r := input_from_image (right (snd item)) in
  let input_l := input_from_image (left (snd item)) in
  let est := estimate_gaze_twoeyes input_l input_r hp in
  let d' := deque_append est d in
  let med := np_average (items d') average_weights in
  gate env sid ts = Accept euler hp ->
  gaze_buffer_c s !! sid = Some d ->
  maxlen d = 5 ->
  deque_len d' = 5 ->
  sendTransform env (quaternion_of med) ts sid = Some closed_topic ->
  let s' := MkState (<[sid := d']> (gaze_buffer_c s)) (time_last s)
              (trace s ++ [Diagnostic (EulerAnglesHead euler);
                           EstimateGazeTwoEyes input_l input_r hp;
                           PublishGaze med ts sid;
                           SendTransform (quaternion_of med) ts sid;
                           Diagnostic SeeYa]) in
  compute_eye_gaze_estimation env sid ts input_r input_l s = (inr None, s') /\
  loop_body env ts acc item s = (inr acc, s') /\
  est ∈ items d' /\
  forall (env2 : Env) ts2 (ir2 il2 : Input) euler2 hp2,
    gate env2 sid ts2 = Accept euler2 hp2 ->
    let est2 := estimate_gaze_twoeyes il2 ir2 hp2 in
    let next := compute_eye_gaze_estimation env2 sid ts2 ir2 il2 s' in
    samples (snd next) sid = tail (items d') ++ [est2] /\
    est ∈ tail (items d') ++ [est2] /\
    emissions sid (trace (snd next)) =
      emissions sid (trace s') ++
      [np_average (tail (items d') ++ [est2]) average_weights].
Proof.
  intros sid input_r input_l est d' med Hg Hd Hmax Hfull Hsend s'.
  assert (Hc : compute_eye_gaze_estimation env sid ts input_r input_l s
               = (inr None, s')).
  { rewrite (compute_accept _ _ _ _ _ _ _ _ _ Hg Hd). unfold accepted_outcome.
    fold est. fold d'. rewrite average_weights_length, Hfull. cbn [Nat.eqb].
    fold med. cbn [gaze_buffer_c time_last trace]. rewrite Hsend.
    unfold except_clauses. rewrite String.eqb_refl.
    unfold bind, emit, ret. cbn [gaze_buffer_c time_last trace]. subst s'.
    rewrite <- !app_assoc. reflexivity. }
  assert (Hlast : exists l, items d' = l ++ [est] /\ length l = 4).
  { destruct (deque_append_suffix est d) as [k Hk]. fold d' in Hk.
    unfold deque_len in Hfull.
    destruct (items d') as [|x l] using rev_ind; [discriminate|].
    rewrite app_assoc in Hk. apply app_inj_tail in Hk as [_ ->].
    exists l. split; [reflexivity|]. rewrite length_app in Hfull. cbn in Hfull. lia. }
  destruct Hlast as (l & Hl & Hlen).
  split; [exact Hc|]. split; [|split].
  - destruct item as [sid0 imgs]. unfold loop_body, ensure_buffer.
    cbn [fst snd] in *. unfold bind at 1.
    rewrite decide_True by (apply elem_of_dom; eauto).
    unfold bind. fold sid input_r input_l. rewrite Hc. reflexivity.
  - rewrite Hl. apply elem_of_app. right. apply list_elem_of_singleton. reflexivity.
  - intros env2 ts2 ir2 il2 euler2 hp2 Hg2 est2 next. subst next.
    assert (Hd' : gaze_buffer_c s' !! sid = Some d')
      by (subst s'; cbn; apply lookup_insert_eq).
    rewrite (compute_accept _ _ _ _ _ _ _ _ _ Hg2 Hd').
    destruct (accepted_outcome_facts env2 sid ts2 ir2 il2 s' euler2 hp2 d')
      as (Hb & He & Hr).
    cbv zeta in Hb, He, Hr. fold est2 in Hb, He, Hr.
    assert (Hitems : items (deque_append est2 d') = tail (items d') ++ [est2]).
    { apply deque_append_full; change (maxlen d') with (maxlen d);
        rewrite Hmax; [exact Hfull | lia]. }
    assert (Hlen2 : deque_len (deque_append est2 d') = 5).
    { unfold deque_len. rewrite Hitems, Hl, length_app.
      destruct l; [discriminate|]. cbn in *. rewrite length_app. cbn. lia. }
    rewrite Hlen2 in He. cbn [Nat.eqb] in He. rewrite Hitems in He.
    split; [|split; [|exact He]].
    + unfold samples. rewrite Hb, lookup_insert_eq. exact Hitems.
    + rewrite Hl. destruct l; [discriminate|]. cbn [tail app].
      rewrite !elem_of_app. left. right. apply list_elem_of_singleton. reflexivity.
Qed.

(** C5.  After any run of callbacks from the start of the node, every
    buffer has capacity five and holds at most five samples; a deque that
    starts empty with capacity five holds, after any pushes, the last five
    of them in the order pushed; a pass of the loop whose gate lets the
    subject through adds the raw estimate at the end of the buffer when
    there is room, and with a full buffer drops the oldest sample and
    keeps the other four in order, with the new one last; and after one
    more callback every subject holds the last five of the samples it
    held followed by those pushed for it in the passes the callback
    started. *)
Theorem buffer_bounded (frames : list (Env * Msg)) (t0 : TVal) (env : Env) ts
    (item : Item) (acc : option Image) euler hp :
  let s := spin frames (init t0) in
  let sid := fst item in
  let est := estimate_gaze_twoeyes (input_from_image (left (snd item)))
                                   (input_from_image (right (snd item))) hp in
  (forall sid', length (samples s sid') <= 5 /\
     (forall d, gaze_buffer_c s !! sid' = Some d ->
                maxlen d = 5 /\ deque_len d <= 5)) /\
  (forall xs : list (Gaze F),
     let d := fold_left (fun acc x => deque_append x acc) xs (deque_new 5) in
     deque_len d <= 5 /\ items d = window 5 xs) /\
  (gate env sid ts = Accept euler hp ->
   let s' := snd (loop_body env ts acc item s) in
   length (samples s' sid) <= 5 /\
   (length (samples s sid) < 5 -> samples s' sid = samples s sid ++ [est]) /\
   (length (samples s sid) = 5 -> samples s' sid = tail (samples s sid) ++ [est])) /\
  (forall (env' : Env) (m : Msg) sid',
     samples (snd (image_callback env' m s)) sid' =
       window 5 (samples s sid' ++
                 pushes sid' (passes env' (stamp m) (subjects m) s))).
Proof.
  intros s sid est.
  assert (Hs : wf_state s) by apply spin_wf, init_wf.
  split; [|split; [|split]].
  - intros sid'. split.
    + rewrite samples_buffer_of. apply (wf_buffer_of s sid' Hs).
    + intros d Hd. apply (Hs sid' d Hd).
  - intros xs d.
    destruct (deque_appends_window xs (deque_new 5)) as [_ Hi]; [cbn; lia|].
    fold d in Hi. cbn [deque_new items maxlen app] in Hi.
    split; [|exact Hi]. unfold deque_len. rewrite Hi, window_length. lia.
  - intros Hg s'.
    assert (Hs' : samples s' sid = window 5 (samples s sid ++ [est])).
    { subst s'. destruct (loop_body_pass env ts acc item s) as [-> _].
      rewrite (pass_samples (env, ts, item) s sid Hs).
      unfold pushes, raw_estimate. cbn [omap list_omap fst snd]. fold sid.
      rewrite decide_True by reflexivity. rewrite Hg. reflexivity. }
    rewrite Hs'. split; [|split].
    + rewrite window_length. lia.
    + intros Hlt. apply window_all. rewrite length_app. cbn [length]. lia.
    + intros Hfull. apply window_full_push; [exact Hfull | lia].
  - intros env' m sid'. rewrite callback_samples. apply run_samples, Hs.
Qed.

(** C6.  An emission is a smoothed estimate handed to [publish_gaze],
    as in C1.  When a run of callbacks pushes six raw estimates
    [e0 .. e5] for a subject whose buffer starts empty, exactly two
    smoothed estimates are handed on for it, in this order: the weighted
    mean of [e0 .. e4] and the weighted mean of [e1 .. e5].  Two runs from
    the same state that push the same raw estimates for the subject hand
    on the same smoothed estimates.  The estimate handed on by a call is
    also the one the call returns when the broadcast goes through and the
    clock has moved since the frame rate was last printed. *)
Theorem sliding_determinism :
  (forall (frames : list (Env * Msg)) (s : State) sid e0 e1 e2 e3 e4 e5,
     wf_state s ->
     samples s sid = [] ->
     pushes sid (spin_passes frames s) = [e0; e1; e2; e3; e4; e5] ->
     emissions sid (trace (spin frames s)) =
       emissions sid (trace s) ++
       [smoothed average_weights [e0; e1; e2; e3; e4];
        smoothed average_weights [e1; e2; e3; e4; e5]]) /\
  (forall (frames1 frames2 : list (Env * Msg)) (s : State) sid,
     wf_state s ->
     pushes sid (spin_passes frames1 s) = pushes sid (spin_passes frames2 s) ->
     emissions sid (trace (spin frames1 s)) =
       emissions sid (trace (spin frames2 s))) /\
  (forall (env : Env) sid ts (ir il : Input) (s : State) (g : Gaze F),
     let r := compute_eye_gaze_estimation env sid ts ir il s in
     emissions sid (trace (snd r)) = emissions sid (trace s) ++ [g] ->
     g = smoothed average_weights (samples (snd r) sid) /\
     (sendTransform env (quaternion_of g) ts sid = None ->
      to_nsec (now env sid 1) <> to_nsec (time_last s) ->
      fst r = inr (Some g))).
Proof.
  split; [|split].
  - intros frames s sid e0 e1 e2 e3 e4 e5 Hs Hempty Hp.
    rewrite (spin_emissions frames s sid Hs), Hempty, Hp. f_equal.
    cbn [sliding]. cbv zeta. rewrite average_weights_length.
    cbv [window length app drop Nat.sub Nat.eqb].
    rewrite !np_average_smoothed. reflexivity.
  - intros frames1 frames2 s sid Hs Hp.
    rewrite (spin_emissions frames1 s sid Hs),
            (spin_emissions frames2 s sid Hs), Hp.
    reflexivity.
  - intros env sid ts ir il s g r Hem. subst r.
    assert (Hnil : forall tr : list Event,
              emissions sid tr = [] ->
              emissions sid (trace s ++ tr) <> emissions sid (trace s) ++ [g]).
    { intros tr Htr. rewrite emissions_app, Htr. intros Heq.
      apply app_inv_head in Heq. discriminate. }
    destruct (gate_cases env sid ts) as [(euler & hp & Hg)|[[delta Hg]|[e Hg]]].
    + destruct (gaze_buffer_c s !! sid) as [d|] eqn:Hd.
      * rewrite (compute_accept _ _ _ _ _ _ _ _ _ Hg Hd) in *.
        destruct (accepted_outcome_facts env sid ts ir il s euler hp d)
          as (Hb & He & Hr).
        cbv zeta in Hb, He, Hr.
        set (d' := deque_append (estimate_gaze_twoeyes il ir hp) d) in *.
        rewrite He in Hem. apply app_inv_head in Hem.
        assert (Hafter : samples (snd (accepted_outcome env sid ts ir il euler hp d s))
                           sid = items d').
        { unfold samples. rewrite Hb, lookup_insert_eq. reflexivity. }
        rewrite Hafter, Hr.
        destruct (deque_len d' =? 5); [|discriminate].
        assert (Hgm : g = np_average (items d') average_weights) by congruence.
        clear Hem. rewrite Hgm.
        split; [apply np_average_smoothed|]. intros Hsend Hclock. rewrite Hsend.
        destruct (divides_by_zero (now env sid 1) (time_last s)) eqn:Hz;
          [|reflexivity].
        apply divides_by_zero_spec in Hz. contradiction.
      * rewrite (compute_accept_missing _ _ _ _ _ _ _ _ Hg Hd) in Hem.
        cbn [snd trace] in Hem. exfalso. revert Hem. apply Hnil. reflexivity.
    + rewrite (compute_stale _ _ _ _ _ _ _ Hg) in Hem.
      cbn [snd trace] in Hem. exfalso. revert Hem. apply Hnil. reflexivity.
    + rewrite (compute_lookup _ _ _ _ _ _ _ Hg) in Hem.
      cbn [snd trace] in Hem. exfalso. revert Hem. apply Hnil. reflexivity.
Qed.

(** C4, as amended.  In a pass of the loop for a subject that passes
    the gate, once the gate has passed and the Euler angles are printed,
    the gaze network is called, once, with, in this order, the input made
    from the left eye, the input made from the right eye, and the head
    pose as the pair (theta, phi) taken from the pose read at the latest
    common time; what it returns is the raw estimate pushed into the
    subject's buffer.  In a callback that returns, this is so for every
    subject of the message that passes the gate. *)
Theorem estimator_arguments (env : Env) ts (item : Item) (acc : option Image)
    (s : State) euler hp :
  gate env (fst item) ts = Accept euler hp ->
  let sid := fst item in
  let input_r := input_from_image (right (snd item)) in
  let input_l := input_from_image (left (snd item)) in
  let s' := snd (loop_body env ts acc item s) in
  (exists lct rot_head,
     getLatestCommonTime env sid = inr lct /\
     lookupTransform env sid lct = inr rot_head /\
     euler = limit_yaw rot_head /\
     let phi_theta := get_phi_theta_from_euler (limit_yaw rot_head) in
     hp = (snd phi_theta, fst phi_theta)) /\
  (exists tr,
     trace s' =
       trace s ++ [Diagnostic (EulerAnglesHead euler);
                   EstimateGazeTwoEyes input_l input_r hp] ++ tr /\
     estimator_calls tr = []) /\
  (wf_state s ->
   samples s' sid =
     window 5 (samples s sid ++ [estimate_gaze_twoeyes input_l input_r hp])) /\
  (forall (m : Msg) (s0 : State),
     stamp m = ts -> item ∈ subjects m ->
     raises (fst (image_callback env m s0)) = false ->
     exists tr1 tr2,
       trace (snd (image_callback env m s0)) =
         trace s0 ++ tr1 ++ [Diagnostic (EulerAnglesHead euler);
                             EstimateGazeTwoEyes input_l input_r hp] ++ tr2).
Proof.
  intros Hg sid input_r input_l s'. subst s'. split; [|split; [|split]].
  - unfold gate in Hg. fold sid in Hg.
    destruct (getLatestCommonTime env sid) as [e|lct] eqn:E1; [discriminate|].
    destruct (fresh ts lct); [|discriminate].
    destruct (lookupTransform env sid lct) as [e|rot] eqn:E2; [discriminate|].
    exists lct, rot. split; [reflexivity|]. split; [exact E2|].
    cbv zeta. destruct (get_phi_theta_from_euler (limit_yaw rot)).
    injection Hg as <- <-. split; reflexivity.
  - apply loop_body_accept_events, Hg.
  - intros Hs. destruct (loop_body_pass env ts acc item s) as [-> _].
    rewrite (pass_samples (env, ts, item) s sid Hs).
    unfold pushes, raw_estimate. cbn [omap list_omap fst snd]. subst sid.
    rewrite decide_True by reflexivity. rewrite Hg. reflexivity.
  - intros m s0 Hts Hin Hret. subst ts.
    destruct (image_callback_run env m s0) as (_ & _ & Htr).
    rewrite Htr, (callback_passes_all env m s0 Hret).
    destruct (run_trace_in (map (fun it => (env, stamp m, it)) (subjects m)) s0
                (env, stamp m, item)) as (s1 & tr1 & tr2 & H1 & H2).
    { apply list_elem_of_fmap. exists item. split; [reflexivity | exact Hin]. }
    rewrite H2. unfold pass. cbn [fst snd].
    destruct (loop_body_accept_events env (stamp m) None item s1 euler hp Hg)
      as (tr & Htr1 & _).
    rewrite Htr1, H1. exists tr1. eexists.
    rewrite <- !app_assoc. cbn [app]. reflexivity.
Qed.

End Claims.

(** * The claims on the stand-in *)

Module Scenarios.
Import Demo.

Local Abbreviation State := DemoState.
Local Abbreviation Env := DemoEnv.
Local Abbreviation Msg := (@Msg string).

Lemma wf_frame (t : Z) (ids : list Z) : NoDup ids -> wf_msg (frame t ids).
Proof.
  intros Hnd. unfold wf_msg, frame. cbn [subjects].
  rewrite map_map. cbn [fst]. rewrite map_id. exact Hnd.
Defined.

Lemma nodup_12 : NoDup [1%Z; 2%Z].
Proof.
  apply NoDup_cons. split; [|apply NoDup_singleton].
  intros Hin. apply list_elem_of_singleton in Hin. discriminate.
Defined.

(** The state [four] is the one the node is in after the first four of
    the six frames, up to the time of the last frame rate. *)
Example four_reached :
  gaze_buffer_c (spin (take 4 six_frames) (init (ms 900))) = gaze_buffer_c four.
Proof. vm_compute. reflexivity. Qed.

Lemma lct_750 : getLatestCommonTime (env_ok 750 1010 5 5) 1%Z = inr (ms 750).
Proof. reflexivity. Defined.

Lemma lct_751 : getLatestCommonTime (env_ok 751 1010 5 5) 1%Z = inr (ms 751).
Proof. reflexivity. Defined.

Lemma exactly_a_quarter : (to_sec (time_sub (ms 1000) (ms 750)) == 0.25)%Q.
Proof. vm_compute. reflexivity. Defined.

Lemma below_a_quarter : (to_sec (time_sub (ms 1000) (ms 751)) < 0.25)%Q.
Proof. vm_compute. reflexivity. Defined.

(** A pose exactly 0.25 s old is stale: the call only prints the time
    difference.  With a pose one millisecond younger the gaze network is
    asked. *)
Lemma staleness_gate_witness :
  compute_eye_gaze_estimation (env_ok 750 1010 5 5) 1 (ms 1000) "in:R" "in:L" four =
    (inr None,
     MkState (gaze_buffer_c four) (time_last four)
             (trace four ++
              [Diagnostic (TooBigTimeDiff (time_sub (ms 1000) (ms 750)))])) /\
  estimator_calls
    (trace (snd (compute_eye_gaze_estimation (env_ok 751 1010 5 5) 1 (ms 1000)
                   "in:R" "in:L" four))) =
    estimator_calls (trace four) ++ [("in:L", "in:R", (5, 5)%Q)]%string.
Proof.
  split.
  - apply (proj1 (proj2 (proj2
             (staleness_gate (env_ok 750 1010 5 5) 1%Z (ms 1000) (ms 750)
                "in:R" "in:L" four lct_750)))).
    exact exactly_a_quarter.
  - exact (proj2 (proj1 (proj2 (proj2 (proj2
             (staleness_gate (env_ok 751 1010 5 5) 1%Z (ms 1000) (ms 751)
                "in:R" "in:L" four lct_751)))) (5, 5)%Q eq_refl)
             below_a_quarter).
Defined.

(** A pose 0.3 s old: the frame leaves the four samples of subject 1 as
    they are. *)
Lemma skipped_subject_untouched_witness :
  samples (snd (image_callback (env_ok 700 1010 5 5) (frame 1000 [1%Z; 2%Z]) four)) 1
  = samples four 1.
Proof.
  apply (proj2 (skipped_subject_untouched (env_ok 700 1010 5 5) 1 (ms 1000)
                  "in:R" "in:L" four
                  (or_introl (ex_intro _ (time_sub (ms 1000) (ms 700)) eq_refl)))
               (frame 1000 [1%Z; 2%Z]) (wf_frame 1000 _ nodup_12) eq_refl).
Defined.

Lemma gate_ok_900 :
  gate (env_ok 900 1010 5 5) 1 (ms 1000) = Accept (5, 5)%Q (5, 5)%Q.
Proof. reflexivity. Defined.

Lemma gate_closed_900 :
  gate (env_closed 900 1010 5 5) 1 (ms 1000) = Accept (5, 5)%Q (5, 5)%Q.
Proof. reflexivity. Defined.

Lemma gate_ok_950 :
  gate (env_ok 950 1010 1 1) (fst (1%Z, both_eyes)) (ms 1000)
  = Accept (1, 1)%Q (1, 1)%Q.
Proof. reflexivity. Defined.

Lemma four_buffer :
  gaze_buffer_c four !! 1%Z = Some (MkDeque [g 1 1; g 2 2; g 3 3; g 4 4] 5).
Proof. reflexivity. Defined.

Lemma in_frame_1 : (1%Z, both_eyes) ∈ subjects (frame 1000 [1%Z]).
Proof. apply list_elem_of_singleton. reflexivity. Defined.

Lemma clock_moved_900 :
  to_nsec (now (env_ok 900 1010 5 5) 1 1) <> to_nsec (time_last four).
Proof. vm_compute. discriminate. Defined.

(** Subject 1 has four samples and the broadcast hits a closed topic:
    the push makes five, and nothing is returned. *)
Lemma emission_threshold_counterexample :
  ~ (forall (env : Env) sid ts (ir il : string) (s : State) d euler hp,
       gate env sid ts = Accept euler hp ->
       gaze_buffer_c s !! sid = Some d ->
       let r := compute_eye_gaze_estimation env sid ts ir il s in
       (exists g, fst r = inr (Some g)) <-> length (samples (snd r) sid) = 5).
Proof.
  intros Hclaim.
  destruct (Hclaim (env_closed 900 1010 5 5) 1%Z (ms 1000) "in:R" "in:L" four
              (MkDeque [g 1 1; g 2 2; g 3 3; g 4 4] 5) (5, 5)%Q (5, 5)%Q
              gate_closed_900 four_buffer) as [_ Hret].
  destruct Hret as [x Hx]; [vm_compute; reflexivity|].
  vm_compute in Hx. discriminate Hx.
Qed.

(** The same call when the broadcast goes through and the clock has
    moved: five samples after the push, and their average is returned; and
    over the six frames two smoothed estimates are handed on. *)
Lemma emission_threshold_witness :
  fst (compute_eye_gaze_estimation (env_ok 900 1010 5 5) 1 (ms 1000) "in:R" "in:L" four)
  = inr (Some (np_average [g 1 1; g 2 2; g 3 3; g 4 4; g 5 5] average_weights)) /\
  length (emissions 1 (trace (spin six_frames (init (ms 900))))) = 2.
Proof.
  split.
  - apply (proj1 (proj2 (proj1 emission_threshold (env_ok 900 1010 5 5) 1%Z (ms 1000)
                           "in:R" "in:L" four
                           (MkDeque [g 1 1; g 2 2; g 3 3; g 4 4] 5) (5, 5)%Q (5, 5)%Q
                           gate_ok_900 four_buffer)) clock_moved_900).
    split; reflexivity.
  - rewrite (proj2 (proj2 emission_threshold six_frames (init (ms 900)) 1%Z
                      (init_wf (ms 900)) eq_refl)).
    reflexivity.
Defined.

Lemma returned_900 :
  fst (compute_eye_gaze_estimation (env_ok 900 1010 5 5) 1 (ms 1000) "in:R" "in:L" four)
  = inr (Some (np_average [g 1 1; g 2 2; g 3 3; g 4 4; g 5 5] average_weights)).
Proof. vm_compute. reflexivity. Defined.

(** The average returned for the full window [1 .. 5]. *)
Lemma weighted_average_witness :
  exists e0 e1 e2 e3 e4 : Gaze Q,
    samples (snd (compute_eye_gaze_estimation (env_ok 900 1010 5 5) 1 (ms 1000)
                    "in:R" "in:L" four)) 1
    = [e0; e1; e2; e3; e4] /\
    theta (np_average [g 1 1; g 2 2; g 3 3; g 4 4; g 5 5] average_weights) =
      weighted_mean (map float_literal [0.1; 0.125; 0.175; 0.2; 0.4]%Q)
                    [theta e0; theta e1; theta e2; theta e3; theta e4].
Proof.
  destruct (weighted_average (env_ok 900 1010 5 5) 1%Z (ms 1000) "in:R" "in:L" four
              (np_average [g 1 1; g 2 2; g 3 3; g 4 4; g 5 5] average_weights)
              (or_introl returned_900))
    as (euler & hp & e0 & e1 & e2 & e3 & e4 & _ & Hs & _ & Ht & _).
  exists e0, e1, e2, e3, e4. split; [exact Hs | exact Ht].
Defined.

(** The right eye is "R" and the left eye is "L": the gaze network is
    not called with the right input first. *)
Lemma estimator_arguments_counterexample :
  ~ (forall (env : Env) (m : Msg) (s : State) item euler hp,
       item ∈ subjects m ->
       gate env (fst item) (stamp m) = Accept euler hp ->
       EstimateGazeTwoEyes (input_from_image (right (snd item)))
                           (input_from_image (left (snd item))) hp
         ∈ trace (snd (image_callback env m s))).
Proof.
  intros Hclaim.
  pose proof (Hclaim (env_ok 950 1010 1 1) (frame 1000 [1%Z]) (init (ms 900))
                (1%Z, both_eyes) (1, 1)%Q (1, 1)%Q in_frame_1 gate_ok_950)
    as Hin.
  vm_compute in Hin.
  apply elem_of_cons in Hin as [Hin|Hin]; [discriminate Hin|].
  apply list_elem_of_singleton in Hin. discriminate Hin.
Qed.

(** It is called with the left input first, and its answer is the
    sample pushed. *)
Lemma estimator_arguments_witness :
  (exists tr,
     trace (snd (loop_body (env_ok 950 1010 1 1) (ms 1000) None (1%Z, both_eyes)
                   (init (ms 900)))) =
       [] ++ [Diagnostic (EulerAnglesHead (1, 1)%Q);
              EstimateGazeTwoEyes "in:L" "in:R" (1, 1)%Q] ++ tr /\
     estimator_calls tr = []) /\
  samples (snd (loop_body (env_ok 950 1010 1 1) (ms 1000) None (1%Z, both_eyes)
                  (init (ms 900)))) 1 =
    window 5 ([] ++ [g 1 1]).
Proof.
  pose proof (estimator_arguments (env_ok 950 1010 1 1) (ms 1000) (1%Z, both_eyes)
                None (init (ms 900)) (1, 1)%Q (1, 1)%Q gate_ok_950)
    as (_ & Htr & Hs & _).
  split; [exact Htr | exact (Hs (init_wf (ms 900)))].
Defined.

Lemma gate_ok_1450 :
  gate (env_ok 1450 1510 6 6) (fst (1%Z, both_eyes)) (ms 1500)
  = Accept (6, 6)%Q (6, 6)%Q.
Proof. reflexivity. Defined.

(** After five frames the buffer of subject 1 is full; the sixth drops
    the sample of the first. *)
Lemma buffer_bounded_witness :
  samples (snd (loop_body (env_ok 1450 1510 6 6) (ms 1500) None (1%Z, both_eyes)
                  (spin (take 5 six_frames) (init (ms 900))))) 1
  = tail (samples (spin (take 5 six_frames) (init (ms 900))) 1) ++ [g 6 6].
Proof.
  apply (proj2 (proj2 (proj1 (proj2 (proj2
           (buffer_bounded (take 5 six_frames) (ms 900) (env_ok 1450 1510 6 6)
              (ms 1500) (1%Z, both_eyes) None (6, 6)%Q (6, 6)%Q))) gate_ok_1450))).
  reflexivity.
Defined.

Lemma pushed_six :
  pushes 1 (spin_passes six_frames (init (ms 900))) =
    [g 1 1; g 2 2; g 3 3; g 4 4; g 5 5; g 6 6].
Proof. vm_compute. reflexivity. Defined.

(** Six pushes, two smoothed estimates: over samples 1-5 and 2-6. *)
Lemma sliding_determinism_witness :
  emissions 1 (trace (spin six_frames (init (ms 900)))) =
    emissions 1 (trace (init (ms 900) : State)) ++
    [smoothed average_weights [g 1 1; g 2 2; g 3 3; g 4 4; g 5 5];
     smoothed average_weights [g 2 2; g 3 3; g 4 4; g 5 5; g 6 6]].
Proof.
  apply (proj1 sliding_determinism six_frames (init (ms 900)) 1%Z
           (g 1 1) (g 2 2) (g 3 3) (g 4 4) (g 5 5) (g 6 6)
           (init_wf (ms 900)) eq_refl pushed_six).
Defined.

Lemma closed_900 :
  let med := np_average [g 1 1; g 2 2; g 3 3; g 4 4; g 5 5] average_weights in
  sendTransform (env_closed 900 1010 5 5) (quaternion_of med) (ms 1000) 1
  = Some closed_topic.
Proof. reflexivity. Defined.

(** The push that fills the window while the topic is closed: nothing
    comes back to the loop, and the sample stays. *)
Lemma publish_failure_keeps_sample_witness :
  fst (loop_body (env_closed 900 1010 5 5) (ms 1000) None (1%Z, both_eyes) four)
  = inr None /\
  g 5 5 ∈ [g 1 1; g 2 2; g 3 3; g 4 4; g 5 5].
Proof.
  destruct (publish_failure_keeps_sample (env_closed 900 1010 5 5) (ms 1000)
              (1%Z, both_eyes) four (MkDeque [g 1 1; g 2 2; g 3 3; g 4 4] 5)
              (5, 5)%Q (5, 5)%Q None gate_closed_900 four_buffer eq_refl eq_refl
              closed_900)
    as (_ & Hl & Hin & _).
  split; [rewrite Hl; reflexivity | exact Hin].
Defined.

(** C8, at an input where the code breaks it.  Subjects 1 and 2 have
    full buffers, subject 3 has none yet, and the clock reads 1010 ms
    throughout the callback (simulated time).  Subject 1's estimate is
    handed on and line 90 sets [time_last] to 1010 ms; subject 2's
    estimate is handed on and the frame rate of line 89 divides by zero.
    The callback raises, so subject 3, whose id appears in this frame for
    the first time, gets no entry, and no image is published; alone in the
    message, subject 3 gets its entry. *)
Theorem registry_entry_missed :
  let env := env_ok 950 1010 6 6 in
  let r := image_callback env (frame 1000 [1%Z; 2%Z; 3%Z]) two_full in
  fst r = inl ZeroDivisionError /\
  gaze_buffer_c (snd r) !! 3%Z = None /\
  time_last (snd r) = ms 1010 /\
  published_images (trace (snd r)) = [] /\
  gaze_buffer_c (snd (image_callback env (frame 1000 [3%Z]) two_full)) !! 3%Z
    = Some (MkDeque [g 6 6] 5).
Proof. vm_compute. repeat split; reflexivity. Qed.

(** C9, at an input where the code breaks it.  Subjects 1, 2 and 3
    have full buffers and the clock reads 1010 ms throughout the callback.
    The frame rate printed after subject 2's estimate divides by zero, and
    subject 3, which passes the gate, is not processed: its buffer is what
    it was and nothing is handed on for it.  Alone in the message, at the
    same state and time, subject 3 has its raw estimate pushed and its
    smoothed estimate handed on and drawn. *)
Theorem isolation_broken :
  let env := env_ok 950 1010 6 6 in
  let together := image_callback env (frame 1000 [1%Z; 2%Z; 3%Z]) three_full in
  let alone := image_callback env (frame 1000 [3%Z]) three_full in
  raw_estimate env (ms 1000) (3%Z, both_eyes) = Some (g 6 6) /\
  fst together = inl ZeroDivisionError /\
  samples (snd together) 3 = samples three_full 3 /\
  emissions 3 (trace (snd together)) = [] /\
  published_images (trace (snd together)) = [] /\
  fst alone = inr tt /\
  samples (snd alone) 3 = [g 2 2; g 3 3; g 4 4; g 5 5; g 6 6] /\
  emissions 3 (trace (snd alone)) =
    [np_average [g 2 2; g 3 3; g 4 4; g 5 5; g 6 6] average_weights] /\
  published_images (trace (snd alone)) = ["R|L"%string].
Proof. vm_compute. repeat split; reflexivity. Qed.

End Scenarios.

(** * More on the callback *)

Section CallbackFacts.
Context {F Image Input Rot Euler : Type}.
Context `{Float64 F} `{Collaborators F Image Input Rot Euler}.

Local Abbreviation State := (@State F Image Input Rot Euler).
Local Abbreviation Env := (@Env Image Rot).
Local Abbreviation Event := (@Event F Image Input Rot Euler).
Local Abbreviation Msg := (@Msg Image).
Local Abbreviation Item := (SubjectId * @SubjectImages Image)%type.
Local Abbreviation Pass := (Env * TVal * Item)%type.

(** A property of traces that holds of nothing, is kept by putting two
    traces one after the other, and holds of what every pass adds, holds
    of what a run adds. *)
Lemma run_adds (P : list Event -> Prop) (ps : list Pass) (s : State) :
  P [] ->
  (forall a b, P a -> P b -> P (a ++ b)) ->
  (forall p s0 tr, p ∈ ps -> trace (pass p s0) = trace s0 ++ tr -> P tr) ->
  exists tr, trace (run ps s) = trace s ++ tr /\ P tr.
Proof.
  intros Hnil Happ. revert s.
  induction ps as [|p ps IH]; intros s Hpass.
  - exists []. split; [cbn; symmetry; apply app_nil_r | exact Hnil].
  - rewrite run_cons.
    destruct (IH (pass p s)) as (tr & Htr & HP).
    { intros q s0 tr Hin. apply Hpass. apply elem_of_cons. auto. }
    destruct (pass_extends p s) as [tr0 Htr0].
    exists (tr0 ++ tr). rewrite Htr, Htr0, app_assoc. split; [reflexivity|].
    apply Happ; [|exact HP]. apply (Hpass p s tr0); [|exact Htr0].
    apply elem_of_cons. auto.
Qed.


Lemma stack_app (acc : option Image) (r1 r2 : list Image) :
  stack acc (r1 ++ r2) = stack (stack acc r1) r2.
Proof. apply fold_left_app. Qed.

Lemma stack_onto (rows : list Image) (i : Image) :
  stack (Some i) rows = Some (fold_left (fun img row => concatenate img row 0) rows i).
Proof.
  revert i. induction rows as [|r rows IH]; intros i; [reflexivity|].
  unfold stack. cbn [fold_left]. apply IH.
Qed.

(** What the pass returns with an image composed so far is what it
    returns without, put under that image. *)
Lemma loop_body_stack (env : Env) ts acc (item : Item) (s : State) :
  fst (loop_body env ts acc item s) =
    match fst (loop_body env ts None item s) with
    | inl e => inl e
    | inr row => inr (stack acc (option_list row))
    end.
Proof.
  rewrite !loop_body_eq. cbv zeta. cbn [fst].
  destruct (fst (compute_eye_gaze_estimation _ _ _ _ _ _)) as [e|[g|]];
    [reflexivity| |reflexivity].
  destruct acc; reflexivity.
Qed.

(** What the loop returns: the rows of the subjects that returned an
    estimate, stacked. *)
Lemma for_subjects_stack (env : Env) ts (l : list Item) acc (s : State) img :
  fst (for_subjects env ts l acc s) = inr img ->
  img = stack acc (eyes_rows env ts l s).
Proof.
  revert acc s. induction l as [|item l IH]; intros acc s Hr.
  - cbn in Hr. injection Hr as <-. reflexivity.
  - rewrite for_subjects_cons in Hr. cbn [eyes_rows].
    pose proof (loop_body_stack env ts acc item s) as Hst.
    destruct (loop_body_pass env ts acc item s) as [Hs _].
    unfold pass in Hs. cbn [fst snd] in Hs.
    destruct (loop_body env ts acc item s) as [[e|img1] s1];
      destruct (loop_body env ts None item s) as [[e0|row] s0];
      cbn [fst snd] in *; try discriminate.
    injection Hst as ->. subst s1.
    rewrite stack_app. eapply IH, Hr.
Qed.

Lemma samples_insert_buffer_of (s : State) k t (tr : list Event) sid :
  samples (MkState (<[k := buffer_of s k]> (gaze_buffer_c s)) t tr) sid = samples s sid.
Proof.
  unfold samples at 1. cbn [gaze_buffer_c].
  destruct (decide (k = sid)) as [->|Hne].
  - rewrite lookup_insert_eq. symmetry. apply samples_buffer_of.
  - rewrite lookup_insert_ne by assumption. reflexivity.
Qed.

Lemma for_subjects_all_rejected (env : Env) ts (l : list Item) acc (s : State) :
  (forall item, item ∈ l -> forall euler hp, gate env (fst item) ts <> Accept euler hp) ->
  let r := for_subjects env ts l acc s in
  fst r = inr acc /\
  trace (snd r) = trace s ++ map Diagnostic (omap (rejection env ts) l) /\
  time_last (snd r) = time_last s /\
  length (omap (rejection env ts) l) = length l /\
  forall sid, samples (snd r) sid = samples s sid.
Proof.
  revert acc s. induction l as [|item l IH]; intros acc s Hrej.
  - cbn. rewrite app_nil_r. auto.
  - rewrite for_subjects_cons.
    pose proof (Hrej item ltac:(apply elem_of_cons; auto)) as Hg.
    assert (Hl : forall it, it ∈ l ->
                 forall euler hp, gate env (fst it) ts <> Accept euler hp).
    { intros it Hin. apply Hrej. apply elem_of_cons. auto. }
    destruct (rejection_cases env ts item) as [(euler & hp & Ha)|(dg & Hr & _)];
      [destruct (Hg _ _ Ha)|].
    rewrite (loop_body_reject _ _ _ _ _ _ Hr).
    match goal with |- context [for_subjects env ts l ?a ?st] =>
      destruct (IH a st Hl) as (H1 & H2 & H3 & H4 & H5) end.
    cbv zeta in H1, H2, H3, H4, H5. cbv zeta. rewrite H1, H2, H3.
    cbn [trace time_last omap list_omap].
    rewrite Hr. cbn [map length]. rewrite H4, <- app_assoc.
    repeat split; try reflexivity.
    intros sid. rewrite H5. apply samples_insert_buffer_of.
Qed.

End CallbackFacts.

Section CallbackProperties.
Context {F Image Input Rot Euler : Type}.
Context `{Float64 F} `{Collaborators F Image Input Rot Euler}.

Local Abbreviation State := (@State F Image Input Rot Euler).
Local Abbreviation Env := (@Env Image Rot).
Local Abbreviation Event := (@Event F Image Input Rot Euler).
Local Abbreviation Msg := (@Msg Image).
Local Abbreviation Item := (SubjectId * @SubjectImages Image)%type.
Local Abbreviation Pass := (Env * TVal * Item)%type.

Lemma run_publishes_nothing (ps : list Pass) (s : State) :
  published_images (trace (run ps s)) = published_images (trace s).
Proof.
  destruct (run_adds (fun tr => published_images tr = []) ps s)
    as (tr & Htr & Hp).
  - reflexivity.
  - intros a b Ha Hb. rewrite published_images_app, Ha, Hb. reflexivity.
  - intros p s0 tr Hin Htr.
    destruct (loop_body_events (fst (fst p)) (snd (fst p)) None (snd p) s0)
      as (tr' & Htr' & _ & _ & _ & Hp).
    unfold pass in Htr. rewrite Htr' in Htr. apply app_inv_head in Htr.
    subst tr'. exact Hp.
  - rewrite Htr, published_images_app, Hp. apply app_nil_r.
Qed.

(** A pass returns a row only for a subject that passes the gate, and
    the row shows the smoothed estimate the pass handed on. *)
Lemma loop_body_row (env : Env) ts (item : Item) (s : State) row :
  fst (loop_body env ts None item s) = inr (Some row) ->
  (exists euler hp, gate env (fst item) ts = Accept euler hp) /\
  exists g,
    row = eyes_row item g /\
    emissions (fst item) (trace (snd (loop_body env ts None item s))) =
      emissions (fst item) (trace s) ++ [g].
Proof.
  destruct (rejection_cases env ts item) as [(euler & hp & Hg)|(dg & Hr & _)].
  - rewrite (loop_body_accept _ _ _ _ _ _ _ Hg). cbv zeta. cbn [fst snd].
    match goal with |- context [accepted_outcome ?e ?i ?t ?a ?b ?eu ?h ?d ?st] =>
      destruct (accepted_outcome_facts e i t a b st eu h d) as (_ & He & Hf)
    end.
    cbv zeta in He, Hf. rewrite He, Hf. cbn [trace].
    intros Hrow. split; [eauto|].
    destruct (_ =? 5); [|discriminate].
    destruct (sendTransform env _ ts (fst item)); [discriminate|].
    destruct (divides_by_zero _ _); [discriminate|].
    injection Hrow as <-. eexists. split; reflexivity.
  - rewrite (loop_body_reject _ _ _ _ _ _ Hr). discriminate.
Qed.

(** X1.  A callback that returns publishes at most one image: the rows
    of the subjects whose pass returned an estimate, stacked in the order
    of the dictionary with the first on top; no image when no pass
    returned an estimate.  Each row is the right eye followed by the left
    eye, with the smoothed estimate handed on in that pass drawn on both.
    A callback that ends in the [ZeroDivisionError] of line 89 gives no
    image to the publisher, whatever was composed before. *)
Theorem composite_image (env : Env) (m : Msg) (s : State) :
  let r := image_callback env m s in
  let rows := eyes_rows env (stamp m) (subjects m) s in
  (raises (fst r) = false ->
   published_images (trace (snd r)) =
     published_images (trace s) ++
     match rows with
     | [] => []
     | top :: rest => [fold_left (fun img row => concatenate img row 0) rest top]
     end) /\
  (fst r = inl ZeroDivisionError ->
   published_images (trace (snd r)) = published_images (trace s)) /\
  (forall (item : Item) (s0 : State) row,
     fst (loop_body env (stamp m) None item s0) = inr (Some row) ->
     exists g,
       row = concatenate (visualize_eye_result (right (snd item)) g)
                         (visualize_eye_result (left (snd item)) g) 1 /\
       emissions (fst item) (trace (snd (loop_body env (stamp m) None item s0))) =
         emissions (fst item) (trace s0) ++ [g]).
Proof.
  intros r rows. subst r.
  destruct (image_callback_run env m s) as (_ & _ & Htr).
  pose proof (image_callback_result env m s) as Hret.
  rewrite Htr, published_images_app, run_publishes_nothing.
  split; [|split].
  - intros Hr. rewrite Hret in Hr. f_equal.
    destruct (fst (for_subjects env (stamp m) (subjects m) None s)) as [e|img] eqn:E;
      [discriminate|].
    apply for_subjects_stack in E. fold rows in E. subst img.
    destruct rows as [|top rest]; [reflexivity|].
    unfold stack. cbn [fold_left]. fold (stack (Some top) rest).
    rewrite stack_onto. reflexivity.
  - intros Hr. rewrite Hret in Hr.
    destruct (fst (for_subjects env (stamp m) (subjects m) None s)) as [e|[i|]].
    + apply app_nil_r.
    + destruct (publish env i); discriminate.
    + discriminate.
  - intros item s0 row Hrow.
    destruct (loop_body_row env (stamp m) item s0 row Hrow) as (_ & g & Hg & He).
    exists g. split; [exact Hg | exact He].
Qed.

(** X2.  What one callback gives the broadcaster is, call for call and
    in the same order, what it handed to [publish_gaze]: the quaternion
    made from the Euler angles of (phi, theta), under the stamp of the
    message and the id of a subject of the message.  Nothing else is
    broadcast. *)
Theorem broadcasts_follow_estimates (env : Env) (m : Msg) (s : State) :
  exists tr,
    trace (snd (image_callback env m s)) = trace s ++ tr /\
    broadcasts tr = map as_transform (handed_on tr) /\
    Forall (fun c => snd (fst c) = stamp m /\ snd c ∈ map fst (subjects m))
           (handed_on tr).
Proof.
  destruct (run_adds
              (fun tr => broadcasts tr = map as_transform (handed_on tr) /\
                         Forall (fun c => snd (fst c) = stamp m /\
                                          snd c ∈ map fst (subjects m))
                                (handed_on tr))
              (passes env (stamp m) (subjects m) s) s) as (tr & Htr & Hb & Hf).
  - split; [reflexivity | constructor].
  - intros a b [Ha1 Ha2] [Hb1 Hb2].
    rewrite broadcasts_app, handed_on_app, map_app, Ha1, Hb1.
    split; [reflexivity | apply Forall_app; auto].
  - intros p s0 tr Hin Htr.
    apply passes_elem in Hin as (Henv & Hts & Hin).
    destruct p as [[env' ts'] item]. cbn [fst snd] in *. subst env' ts'.
    destruct (loop_body_events env (stamp m) None item s0)
      as (tr' & Htr' & _ & Hh & Hb & _).
    unfold pass in Htr. cbn [fst snd] in Htr.
    rewrite Htr' in Htr. apply app_inv_head in Htr.
    subst tr'. split; [exact Hb|]. rewrite Hh.
    destruct (item_smoothed _ _ _ _) as [g|];
      [change (option_list (Some g)) with [g]
      |change (option_list None) with (@nil (Gaze F))];
      cbn [map]; constructor; [|constructor].
    cbn. split; [reflexivity|]. apply list_elem_of_fmap. exists item. auto.
  - destruct (image_callback_run env m s) as (_ & _ & Hcb).
    rewrite Hcb, Htr.
    eexists. rewrite <- app_assoc. split; [reflexivity|].
    rewrite broadcasts_app, handed_on_app.
    destruct (fst (for_subjects env (stamp m) (subjects m) None s)) as [e|[i|]];
      cbn [broadcasts handed_on omap list_omap];
      rewrite !app_nil_r; split; assumption.
Qed.


Lemma for_subjects_raises (env : Env) ts (l : list Item) acc (s : State) e :
  (forall acc0 (item : Item) s0 e0,
     fst (loop_body env ts acc0 item s0) = inl e0 -> e0 = ZeroDivisionError) ->
  fst (for_subjects env ts l acc s) = inl e -> e = ZeroDivisionError.
Proof.
  intros Hbody. revert acc s. induction l as [|item l IH]; intros acc s Hr.
  - discriminate.
  - rewrite for_subjects_cons in Hr.
    pose proof (Hbody acc item s) as Hb.
    destruct (loop_body env ts acc item s) as [[e0|img] s1]; cbn [fst] in *.
    + injection Hr as <-. apply Hb. reflexivity.
    + eapply IH, Hr.
Qed.

(** X3.  A call raises in two cases only: [KeyError] when the subject
    passes the gate and has no buffer, and [ZeroDivisionError] when the
    push fills the window, the broadcast goes through and the clock reads
    the time at which the frame rate was last printed.  The loop makes the
    buffer first, so the only exception that leaves a pass of the loop is
    [ZeroDivisionError], and the only other one that leaves the callback
    is the [rospy.ROSException] of the image publisher. *)
Theorem escaping_exceptions :
  (forall (env : Env) sid ts (ir il : Input) (s : State) e,
     fst (compute_eye_gaze_estimation env sid ts ir il s) = inl e <->
     (e = KeyError sid /\ gaze_buffer_c s !! sid = None /\
      exists euler hp, gate env sid ts = Accept euler hp) \/
     (e = ZeroDivisionError /\
      exists euler hp d,
        gate env sid ts = Accept euler hp /\ gaze_buffer_c s !! sid = Some d /\
        let d' := deque_append (estimate_gaze_twoeyes il ir hp) d in
        let med := np_average (items d') average_weights in
        deque_len d' = 5 /\
        sendTransform env (quaternion_of med) ts sid = None /\
        to_nsec (now env sid 1) = to_nsec (time_last s))) /\
  (forall (env : Env) ts acc (item : Item) (s : State) e,
     fst (loop_body env ts acc item s) = inl e -> e = ZeroDivisionError) /\
  (forall (env : Env) (m : Msg) (s : State) e,
     fst (image_callback env m s) = inl e ->
     e = ZeroDivisionError \/
     exists i msg, publish env i = Some msg /\ e = ROSException msg).
Proof.
  assert (Hcall : forall (env : Env) sid ts (ir il : Input) (s : State) e,
     fst (compute_eye_gaze_estimation env sid ts ir il s) = inl e <->
     (e = KeyError sid /\ gaze_buffer_c s !! sid = None /\
      exists euler hp, gate env sid ts = Accept euler hp) \/
     (e = ZeroDivisionError /\
      exists euler hp d,
        gate env sid ts = Accept euler hp /\ gaze_buffer_c s !! sid = Some d /\
        let d' := deque_append (estimate_gaze_twoeyes il ir hp) d in
        let med := np_average (items d') average_weights in
        deque_len d' = 5 /\
        sendTransform env (quaternion_of med) ts sid = None /\
        to_nsec (now env sid 1) = to_nsec (time_last s))).
  { intros env sid ts ir il s e.
    destruct (gate env sid ts) as [euler hp|delta|te] eqn:Hg.
    - destruct (gaze_buffer_c s !! sid) as [d|] eqn:Hd.
      + rewrite (compute_accept _ _ _ _ _ _ _ _ _ Hg Hd).
        destruct (accepted_outcome_facts env sid ts ir il s euler hp d)
          as (_ & _ & Hr).
        cbv zeta in Hr. rewrite Hr. split.
        * destruct (Nat.eqb_spec
                      (deque_len (deque_append (estimate_gaze_twoeyes il ir hp) d)) 5)
            as [Hlen|Hlen]; [|discriminate].
          destruct (sendTransform env _ ts sid) eqn:Hsend; [discriminate|].
          destruct (divides_by_zero _ _) eqn:Hz; [|discriminate].
          intros [= <-]. right. split; [reflexivity|].
          exists euler, hp, d. cbv zeta.
          apply divides_by_zero_spec in Hz. auto.
        * intros [(_ & [=] & _)|(-> & euler' & hp' & d' & [= <- <-] & [= <-] & Hrest)].
          cbv zeta in Hrest. destruct Hrest as (Hlen & Hsend & Hclock).
          rewrite Hlen, Hsend. cbn [Nat.eqb].
          apply divides_by_zero_spec in Hclock. rewrite Hclock. reflexivity.
      + rewrite (compute_accept_missing _ _ _ _ _ _ _ _ Hg Hd). cbn [fst].
        split.
        * intros [= <-]. left. eauto.
        * intros [(-> & _)|(_ & euler' & hp' & d' & _ & [=] & _)]. reflexivity.
    - rewrite (compute_stale _ _ _ _ _ _ _ Hg). cbn [fst].
      split; [discriminate|].
      intros [(_ & _ & ? & ? & [=])|(_ & ? & ? & ? & [=] & _)].
    - rewrite (compute_lookup _ _ _ _ _ _ _ Hg). cbn [fst].
      split; [discriminate|].
      intros [(_ & _ & ? & ? & [=])|(_ & ? & ? & ? & [=] & _)]. }
  assert (Hbody : forall (env : Env) ts acc (item : Item) (s : State) e,
            fst (loop_body env ts acc item s) = inl e -> e = ZeroDivisionError).
  { intros env ts acc item s e. rewrite loop_body_eq. cbv zeta. cbn [fst].
    match goal with |- context [compute_eye_gaze_estimation ?en ?i ?t ?a ?b ?st] =>
      pose proof (Hcall en i t a b st) as Hc;
      destruct (fst (compute_eye_gaze_estimation en i t a b st)) as [e0|g]
    end; [|discriminate].
    intros [= <-]. destruct (proj1 (Hc e0) eq_refl) as [(_ & Hnone & _)|(-> & _)];
      [|reflexivity].
    cbn [gaze_buffer_c] in Hnone. rewrite lookup_insert_eq in Hnone. discriminate. }
  split; [exact Hcall|]. split; [exact Hbody|].
  intros env m s e. rewrite image_callback_result.
  pose proof (for_subjects_raises env (stamp m) (subjects m) None s) as Hfs.
  destruct (fst (for_subjects env (stamp m) (subjects m) None s)) as [e0|[i|]].
  - intros [= <-]. left. apply Hfs; [|reflexivity].
    intros. eapply Hbody. eassumption.
  - destruct (publish env i) as [msg|] eqn:Hp; [|discriminate].
    intros [= <-]. right. eauto.
  - discriminate.
Qed.

End CallbackProperties.

Section FailureAndOrder.
Context {F Image Input Rot Euler : Type}.
Context `{Float64 F} `{Collaborators F Image Input Rot Euler}.

Local Abbreviation State := (@State F Image Input Rot Euler).
Local Abbreviation Env := (@Env Image Rot).
Local Abbreviation Event := (@Event F Image Input Rot Euler).
Local Abbreviation Msg := (@Msg Image).
Local Abbreviation Item := (SubjectId * @SubjectImages Image)%type.
Local Abbreviation Pass := (Env * TVal * Item)%type.

(** X4.  A [rospy.ROSException] raised by the broadcast of a smoothed
    estimate never leaves the call, whatever its message: the call returns
    nothing, the raw estimate of the frame is in the buffer, the smoothed
    estimate was handed to [publish_gaze], and the time of the last frame
    rate is what it was.  After the Euler angles of the head, "See ya" is
    printed when the message is the closed-topic one, and nothing more is
    printed for any other message. *)
Theorem ros_exception_swallowed (env : Env) sid ts (ir il : Input) (s : State)
    d euler hp msg :
  let est := estimate_gaze_twoeyes il ir hp in
  let d' := deque_append est d in
  let med := np_average (items d') average_weights in
  gate env sid ts = Accept euler hp ->
  gaze_buffer_c s !! sid = Some d ->
  deque_len d' = 5 ->
  sendTransform env (quaternion_of med) ts sid = Some msg ->
  let r := compute_eye_gaze_estimation env sid ts ir il s in
  fst r = inr None /\
  gaze_buffer_c (snd r) = <[sid := d']> (gaze_buffer_c s) /\
  time_last (snd r) = time_last s /\
  handed_on (trace (snd r)) = handed_on (trace s) ++ [(med, ts, sid)] /\
  (msg = closed_topic ->
   printed (trace (snd r)) = printed (trace s) ++ [EulerAnglesHead euler; SeeYa]) /\
  (msg <> closed_topic ->
   printed (trace (snd r)) = printed (trace s) ++ [EulerAnglesHead euler]).
Proof.
  intros est d' med Hg Hd Hfull Hsend r. subst r.
  rewrite (compute_accept _ _ _ _ _ _ _ _ _ Hg Hd). unfold accepted_outcome.
  fold est. fold d'. rewrite average_weights_length, Hfull. cbn [Nat.eqb].
  fold med. cbn [gaze_buffer_c time_last trace]. rewrite Hsend.
  unfold except_clauses.
  destruct (String.eqb_spec msg closed_topic) as [Heq|Hne];
    unfold bind, emit, ret; cbn [fst snd gaze_buffer_c time_last trace];
    (split; [reflexivity|]); (split; [reflexivity|]); (split; [reflexivity|]);
    rewrite ?handed_on_app, ?printed_app;
    cbn [handed_on printed omap list_omap app]; rewrite ?app_nil_r;
    rewrite <- ?app_assoc; cbn [app];
    (split; [reflexivity|]); split; intros Hm;
    first [reflexivity | contradiction].
Qed.

Lemma gate_same_listener (env1 env2 : Env) sid ts :
  (forall i, getLatestCommonTime env1 i = getLatestCommonTime env2 i) ->
  (forall i t, lookupTransform env1 i t = lookupTransform env2 i t) ->
  gate env1 sid ts = gate env2 sid ts.
Proof.
  intros H1 H2. unfold gate. rewrite H1.
  destruct (getLatestCommonTime env2 sid) as [e|lct]; [reflexivity|].
  rewrite H2. reflexivity.
Qed.

Lemma loop_body_same_buffers (env1 env2 : Env) ts (item : Item) acc1 acc2
    (s1 s2 : State) :
  (forall i, getLatestCommonTime env1 i = getLatestCommonTime env2 i) ->
  (forall i t, lookupTransform env1 i t = lookupTransform env2 i t) ->
  gaze_buffer_c s1 = gaze_buffer_c s2 ->
  gaze_buffer_c (snd (loop_body env1 ts acc1 item s1)) =
  gaze_buffer_c (snd (loop_body env2 ts acc2 item s2)).
Proof.
  intros H1 H2 Hs. rewrite !loop_body_buffers.
  unfold item_buffer, raw_estimate, buffer_of.
  rewrite (gate_same_listener env1 env2 (fst item) ts H1 H2), Hs. reflexivity.
Qed.

(** X6.  The buffers after a pass of the loop depend on the answers of
    the tf listener only: whether the broadcast goes through or raises,
    what the clock reads and whether the pass raises make no difference to
    any buffer.  So two callbacks that both return leave the same buffers
    when the tf listener answers the same. *)
Theorem buffers_ignore_broadcast (env1 env2 : Env) :
  (forall i, getLatestCommonTime env1 i = getLatestCommonTime env2 i) ->
  (forall i t, lookupTransform env1 i t = lookupTransform env2 i t) ->
  (forall ts (item : Item) acc1 acc2 (s1 s2 : State),
     gaze_buffer_c s1 = gaze_buffer_c s2 ->
     gaze_buffer_c (snd (loop_body env1 ts acc1 item s1)) =
     gaze_buffer_c (snd (loop_body env2 ts acc2 item s2))) /\
  (forall (m : Msg) (s1 s2 : State),
     gaze_buffer_c s1 = gaze_buffer_c s2 ->
     raises (fst (image_callback env1 m s1)) = false ->
     raises (fst (image_callback env2 m s2)) = false ->
     gaze_buffer_c (snd (image_callback env1 m s1)) =
     gaze_buffer_c (snd (image_callback env2 m s2))).
Proof.
  intros H1 H2. split.
  - intros ts item acc1 acc2 s1 s2. apply loop_body_same_buffers; assumption.
  - intros m s1 s2 Hs Hr1 Hr2.
    destruct (image_callback_run env1 m s1) as (-> & _ & _).
    destruct (image_callback_run env2 m s2) as (-> & _ & _).
    rewrite (callback_passes_all env1 m s1 Hr1), (callback_passes_all env2 m s2 Hr2).
    clear Hr1 Hr2. revert s1 s2 Hs.
    induction (subjects m) as [|item l IH]; intros s1 s2 Hs; [exact Hs|].
    cbn [map]. rewrite !run_cons. apply IH. unfold pass. cbn [fst snd].
    apply loop_body_same_buffers; assumption.
Qed.

Lemma find_not_in (l : list Item) sid :
  sid ∉ map fst l -> find (fun item => bool_decide (fst item = sid)) l = None.
Proof.
  induction l as [|item l IH]; [reflexivity|]. cbn. intros Hn.
  rewrite not_elem_of_cons in Hn. destruct Hn as [Hne Hn].
  rewrite bool_decide_eq_false_2 by congruence. auto.
Qed.

Lemma find_in_nodup (l : list Item) (item : Item) :
  NoDup (map fst l) -> item ∈ l ->
  find (fun it => bool_decide (fst it = fst item)) l = Some item.
Proof.
  induction l as [|x l IH]; intros Hnd Hin; [inversion Hin|].
  cbn [map find] in *. apply NoDup_cons in Hnd as [Hnotin Hnd].
  apply elem_of_cons in Hin as [->|Hin].
  - rewrite bool_decide_eq_true_2 by reflexivity. reflexivity.
  - rewrite bool_decide_eq_false_2; [auto|].
    intros Heq. apply Hnotin. rewrite Heq.
    apply list_elem_of_fmap. exists item. auto.
Qed.

Lemma buffer_of_pass_ne (p : Pass) (s : State) sid :
  fst (snd p) ≠ sid -> buffer_of (pass p s) sid = buffer_of s sid.
Proof.
  intros Hne. unfold buffer_of. rewrite pass_buffers.
  rewrite lookup_insert_ne by assumption. reflexivity.
Qed.

(** What a run of one pass per item does to the buffer of one subject,
    and what it hands on for it, when the keys are distinct. *)
Lemma run_lookup (env : Env) ts (l : list Item) (s : State) sid :
  NoDup (map fst l) ->
  gaze_buffer_c (run (map (fun item => (env, ts, item)) l) s) !! sid =
    match find (fun item => bool_decide (fst item = sid)) l with
    | Some item => Some (item_buffer env ts item (buffer_of s sid))
    | None => gaze_buffer_c s !! sid
    end /\
  emissions sid (trace (run (map (fun item => (env, ts, item)) l) s)) =
    emissions sid (trace s) ++
    match find (fun item => bool_decide (fst item = sid)) l with
    | Some item => option_list (item_smoothed env ts item (buffer_of s sid))
    | None => []
    end.
Proof.
  revert s. induction l as [|item l IH]; intros s Hnd.
  - cbn. rewrite app_nil_r. split; reflexivity.
  - cbn [map find] in *. apply NoDup_cons in Hnd as [Hnotin Hnd].
    rewrite run_cons. destruct (IH (pass (env, ts, item) s) Hnd) as [Hb He].
    rewrite Hb, He, pass_buffers, pass_emissions. cbn [fst snd].
    destruct (decide (fst item = sid)) as [Heq|Hne]; [subst sid|].
    + rewrite bool_decide_eq_true_2 by reflexivity.
      rewrite find_not_in by assumption. rewrite app_nil_r.
      split; [apply lookup_insert_eq | reflexivity].
    + rewrite bool_decide_eq_false_2 by assumption.
      rewrite (buffer_of_pass_ne (env, ts, item) s sid Hne).
      rewrite lookup_insert_ne by assumption. rewrite app_nil_r.
      split; reflexivity.
Qed.

Lemma find_permutation (l1 l2 : list Item) sid :
  NoDup (map fst l1) -> l1 ≡ₚ l2 ->
  find (fun item => bool_decide (fst item = sid)) l1 =
  find (fun item => bool_decide (fst item = sid)) l2.
Proof.
  intros Hnd Hp.
  assert (Hnd2 : NoDup (map fst l2)).
  { change (NoDup (fst <$> l2)). change (NoDup (fst <$> l1)) in Hnd.
    rewrite <- Hp. exact Hnd. }
  destruct (find (fun item => bool_decide (fst item = sid)) l1) as [item|] eqn:E.
  - apply find_some in E as [Hin Hb]. apply bool_decide_eq_true in Hb. subst sid.
    symmetry. apply find_in_nodup; [exact Hnd2|].
    rewrite <- Hp. apply list_elem_of_In, Hin.
  - symmetry. apply find_not_in. intros Hin.
    apply list_elem_of_fmap in Hin as (item & -> & Hin).
    rewrite <- Hp in Hin. apply list_elem_of_In in Hin.
    pose proof (find_none _ _ E item Hin) as Hb. cbn in Hb.
    apply bool_decide_eq_false in Hb. apply Hb. reflexivity.
Qed.

(** X7.  For callbacks that return, the order in which the dictionary
    hands out its items does not matter to the buffers: two messages with
    the same stamp and the same items in another order leave the same
    dictionary of buffers, and for every subject the same smoothed
    estimates are handed to [publish_gaze]. *)
Theorem iteration_order_irrelevant (env : Env) (m1 m2 : Msg) (s : State) :
  wf_msg m1 ->
  stamp m1 = stamp m2 ->
  subjects m1 ≡ₚ subjects m2 ->
  raises (fst (image_callback env m1 s)) = false ->
  raises (fst (image_callback env m2 s)) = false ->
  gaze_buffer_c (snd (image_callback env m1 s)) =
  gaze_buffer_c (snd (image_callback env m2 s)) /\
  forall sid,
    emissions sid (trace (snd (image_callback env m1 s))) =
    emissions sid (trace (snd (image_callback env m2 s))).
Proof.
  intros Hm1 Hst Hp Hr1 Hr2.
  assert (Hm2 : wf_msg m2).
  { unfold wf_msg in *. change (NoDup (fst <$> subjects m2)).
    change (NoDup (fst <$> subjects m1)) in Hm1. rewrite <- Hp. exact Hm1. }
  assert (Hitem : forall sid,
            find (fun item => bool_decide (fst item = sid)) (subjects m1) =
            find (fun item => bool_decide (fst item = sid)) (subjects m2)).
  { intros sid. apply find_permutation; assumption. }
  split.
  - destruct (image_callback_run env m1 s) as (-> & _ & _).
    destruct (image_callback_run env m2 s) as (-> & _ & _).
    rewrite (callback_passes_all env m1 s Hr1), (callback_passes_all env m2 s Hr2).
    apply map_eq. intros sid.
    rewrite (proj1 (run_lookup env (stamp m1) (subjects m1) s sid Hm1)).
    rewrite (proj1 (run_lookup env (stamp m2) (subjects m2) s sid Hm2)).
    rewrite Hitem, Hst. reflexivity.
  - intros sid. rewrite !callback_emissions.
    rewrite (callback_passes_all env m1 s Hr1), (callback_passes_all env m2 s Hr2).
    rewrite (proj2 (run_lookup env (stamp m1) (subjects m1) s sid Hm1)).
    rewrite (proj2 (run_lookup env (stamp m2) (subjects m2) s sid Hm2)).
    rewrite Hitem, Hst. reflexivity.
Qed.

End FailureAndOrder.

Section RunProperties.
Context {F Image Input Rot Euler : Type}.
Context `{Float64 F} `{Collaborators F Image Input Rot Euler}.

Local Abbreviation State := (@State F Image Input Rot Euler).
Local Abbreviation Env := (@Env Image Rot).
Local Abbreviation Event := (@Event F Image Input Rot Euler).
Local Abbreviation Msg := (@Msg Image).
Local Abbreviation Item := (SubjectId * @SubjectImages Image)%type.
Local Abbreviation Pass := (Env * TVal * Item)%type.

(** X8.  Over a run of callbacks the number of samples a subject holds
    is the number it held plus the number pushed for it in the passes
    started, capped at five: it never goes down, whatever is skipped in
    between.  Once a subject holds five samples, every push for it hands
    exactly one smoothed estimate to [publish_gaze]. *)
Theorem window_fills_and_stays_full (frames : list (Env * Msg)) (s : State) sid :
  wf_state s ->
  let pushed := pushes sid (spin_passes frames s) in
  length (samples (spin frames s) sid) =
    Nat.min 5 (length (samples s sid) + length pushed) /\
  (length (samples s sid) = 5 ->
   length (emissions sid (trace (spin frames s))) =
     length (emissions sid (trace s)) + length pushed).
Proof.
  intros Hs pushed. subst pushed. split.
  - rewrite (spin_samples frames s sid Hs), window_length, length_app. lia.
  - intros Hfull.
    rewrite (spin_emissions frames s sid Hs), length_app.
    rewrite sliding_length; [lia | reflexivity | lia].
Qed.

(** X9.  A message none of whose subjects passes the gate has one
    effect outside the node: one line printed per subject, in the order of
    the dictionary, the time difference for a stale pose and the
    exception for a failed lookup.  The gaze network is not asked, nothing
    is broadcast, no image is published, and every subject holds the
    samples it held. *)
Theorem rejected_frame_only_prints (env : Env) (m : Msg) (s : State) :
  (forall item, item ∈ subjects m ->
     forall euler hp, gate env (fst item) (stamp m) <> Accept euler hp) ->
  let s' := snd (image_callback env m s) in
  trace s' = trace s ++ map Diagnostic (omap (rejection env (stamp m)) (subjects m)) /\
  length (omap (rejection env (stamp m)) (subjects m)) = length (subjects m) /\
  forall sid, samples s' sid = samples s sid.
Proof.
  intros Hrej s'. subst s'. unfold image_callback, bind.
  destruct (for_subjects_all_rejected env (stamp m) (subjects m) None s Hrej)
    as (H1 & H2 & _ & H3 & H4).
  cbv zeta in H1, H2, H3, H4.
  destruct (for_subjects env (stamp m) (subjects m) None s) as [r s1].
  cbn [fst snd] in *. subst r. cbn [ret snd].
  split; [exact H2|]. split; [exact H3 | exact H4].
Qed.

(** X10.  The gate has no lower bound and does not look for the pose at
    the time of the frame: with a head pose stamped at or after the frame,
    however much later, the call asks the gaze network; and whatever the
    stamp of the frame, a call either does not ask the gaze network or
    asks it with the head pose of the latest common time. *)
Theorem latest_pose_is_used (env : Env) sid (t_pose : TVal) rot
    (ir il : Input) (s : State) :
  getLatestCommonTime env sid = inr t_pose ->
  lookupTransform env sid t_pose = inr rot ->
  let phi_theta := get_phi_theta_from_euler (limit_yaw rot) in
  let asked t_frame :=
    estimator_calls
      (trace (snd (compute_eye_gaze_estimation env sid t_frame ir il s))) in
  (forall t_frame, (to_nsec t_frame <= to_nsec t_pose)%Z ->
     asked t_frame =
       estimator_calls (trace s) ++ [(il, ir, (snd phi_theta, fst phi_theta))]) /\
  (forall t_frame,
     asked t_frame = estimator_calls (trace s) \/
     asked t_frame =
       estimator_calls (trace s) ++ [(il, ir, (snd phi_theta, fst phi_theta))]).
Proof.
  intros Hlct Hrot phi_theta asked. subst asked.
  assert (Hfresh : forall t_frame, fresh t_frame t_pose = true ->
            estimator_calls
              (trace (snd (compute_eye_gaze_estimation env sid t_frame ir il s))) =
            estimator_calls (trace s) ++ [(il, ir, (snd phi_theta, fst phi_theta))]).
  { intros t_frame Hf.
    assert (Hg : gate env sid t_frame =
                 Accept (limit_yaw rot) (snd phi_theta, fst phi_theta)).
    { unfold gate. rewrite Hlct, Hf, Hrot. subst phi_theta.
      destruct (get_phi_theta_from_euler (limit_yaw rot)); reflexivity. }
    destruct (compute_accept_events env sid t_frame ir il s _ _ Hg)
      as (tr & Htr & Hcalls).
    rewrite Htr, !estimator_calls_app, Hcalls. reflexivity. }
  split.
  - intros t_frame Hle. apply Hfresh. apply fresh_spec. lia.
  - intros t_frame. destruct (fresh t_frame t_pose) eqn:Hf.
    + right. apply Hfresh, Hf.
    + left. rewrite (compute_stale env sid t_frame ir il s
                       (time_sub t_frame t_pose)).
      * cbn [snd trace]. rewrite estimator_calls_app. apply app_nil_r.
      * unfold gate. rewrite Hlct, Hf. reflexivity.
Qed.

Lemma pass_entries (p : Pass) (s : State) sid :
  is_Some (gaze_buffer_c (pass p s) !! sid) <->
  is_Some (gaze_buffer_c s !! sid) \/ fst (snd p) = sid.
Proof.
  rewrite pass_buffers.
  destruct (decide (fst (snd p) = sid)) as [Heq|Hne].
  - rewrite Heq, lookup_insert_eq. split; [auto | eauto].
  - rewrite lookup_insert_ne by assumption. split; [auto | intros [?|?]; tauto].
Qed.

Lemma run_entries (ps : list Pass) (s : State) sid :
  is_Some (gaze_buffer_c (run ps s) !! sid) <->
  is_Some (gaze_buffer_c s !! sid) \/ sid ∈ map (fun p : Pass => fst (snd p)) ps.
Proof.
  revert s. induction ps as [|p ps IH]; intros s.
  - cbn. rewrite elem_of_nil. tauto.
  - rewrite run_cons, IH, pass_entries. cbn [map]. rewrite elem_of_cons.
    split; [intros [[?|?]|?] | intros [?|[?|?]]]; auto.
Qed.

Lemma spin_entries (frames : list (Env * Msg)) (s : State) sid :
  is_Some (gaze_buffer_c (spin frames s) !! sid) <->
  is_Some (gaze_buffer_c s !! sid) \/
  sid ∈ map (fun p : Pass => fst (snd p)) (spin_passes frames s).
Proof.
  revert s. induction frames as [|[env m] frames IH]; intros s.
  - cbn. rewrite elem_of_nil. tauto.
  - cbn [spin spin_passes]. rewrite IH, map_app, elem_of_app.
    destruct (image_callback_run env m s) as (-> & _ & _).
    rewrite run_entries. tauto.
Qed.

Lemma run_no_emissions (ps : list Pass) (s : State) sid :
  (forall p, p ∈ ps -> fst (snd p) = sid ->
     raw_estimate (fst (fst p)) (snd (fst p)) (snd p) = None) ->
  emissions sid (trace (run ps s)) = emissions sid (trace s).
Proof.
  revert s. induction ps as [|p ps IH]; intros s Hrej; [reflexivity|].
  rewrite run_cons, IH.
  - rewrite pass_emissions.
    destruct (decide (fst (snd p) = sid)) as [Heq|Hne]; [|apply app_nil_r].
    unfold item_smoothed.
    rewrite (Hrej p ltac:(apply elem_of_cons; auto) Heq). apply app_nil_r.
  - intros q Hq. apply Hrej. apply elem_of_cons. auto.
Qed.

(** X12.  The dictionary of buffers only grows.  A pass of the loop for
    a subject without an entry starts from a new, empty deque of capacity
    five, a pass for a subject with an entry works on the deque it has,
    and no pass touches the entry of another subject.  Over a run of
    callbacks a subject has an entry exactly when it had one at the start
    or a pass of the loop was started for it, and its samples are the last
    five of those it had and those pushed since: an entry is never removed
    or emptied. *)
Theorem registry_entries_persist :
  (forall (env : Env) ts acc (item : Item) (s : State),
     let s' := snd (loop_body env ts acc item s) in
     gaze_buffer_c s' !! fst item =
       Some (item_buffer env ts item
               (match gaze_buffer_c s !! fst item with
                | Some d => d
                | None => MkDeque [] 5
                end)) /\
     (forall sid, sid ≠ fst item ->
        gaze_buffer_c s' !! sid = gaze_buffer_c s !! sid)) /\
  (forall (frames : list (Env * Msg)) (s : State) sid,
     (is_Some (gaze_buffer_c (spin frames s) !! sid) <->
      is_Some (gaze_buffer_c s !! sid) \/
      sid ∈ map (fun p : Pass => fst (snd p)) (spin_passes frames s)) /\
     (wf_state s ->
      samples (spin frames s) sid =
        window 5 (samples s sid ++ pushes sid (spin_passes frames s)))).
Proof.
  split.
  - intros env ts acc item s s'. subst s'. rewrite loop_body_buffers. split.
    + rewrite lookup_insert_eq. reflexivity.
    + intros sid Hne. apply lookup_insert_ne. congruence.
  - intros frames s sid. split; [apply spin_entries|].
    intros Hs. apply spin_samples, Hs.
Qed.

(** X13.  A call, and a pass of the loop, for subject A changes neither
    the buffer of another subject B nor the smoothed estimates handed on
    for B.  In a callback where no subject but A passes the gate, nothing
    is handed on for any other subject, every other subject keeps its
    samples and its buffer, and every row of the image composed shows A's
    eyes. *)
Theorem other_subjects_untouched :
  (forall (env : Env) sidA ts (ir il : Input) (s : State) sidB,
     sidB ≠ sidA ->
     let s' := snd (compute_eye_gaze_estimation env sidA ts ir il s) in
     gaze_buffer_c s' !! sidB = gaze_buffer_c s !! sidB /\
     emissions sidB (trace s') = emissions sidB (trace s)) /\
  (forall (env : Env) ts acc (item : Item) (s : State) sidB,
     sidB ≠ fst item ->
     let s' := snd (loop_body env ts acc item s) in
     gaze_buffer_c s' !! sidB = gaze_buffer_c s !! sidB /\
     emissions sidB (trace s') = emissions sidB (trace s)) /\
  (forall (env : Env) (m : Msg) (s : State) sidA,
     (forall item, item ∈ subjects m -> fst item ≠ sidA ->
        forall euler hp, gate env (fst item) (stamp m) ≠ Accept euler hp) ->
     let s' := snd (image_callback env m s) in
     (forall sidB, sidB ≠ sidA ->
        emissions sidB (trace s') = emissions sidB (trace s) /\
        samples s' sidB = samples s sidB /\
        (forall d, gaze_buffer_c s !! sidB = Some d ->
                   gaze_buffer_c s' !! sidB = Some d)) /\
     (forall row, row ∈ eyes_rows env (stamp m) (subjects m) s ->
        exists item g, item ∈ subjects m /\ fst item = sidA /\
                       row = eyes_row item g)).
Proof.
  split; [|split].
  - intros env sidA ts ir il s sidB Hne. apply compute_other, Hne.
  - intros env ts acc item s sidB Hne s'. subst s'. split.
    + rewrite loop_body_buffers. apply lookup_insert_ne. congruence.
    + rewrite loop_body_emissions. rewrite decide_False by congruence.
      apply app_nil_r.
  - intros env m s sidA Honly s'. subst s'. split.
    + intros sidB Hne.
      assert (Hrej : forall p : Pass, p ∈ passes env (stamp m) (subjects m) s ->
                fst (snd p) = sidB ->
                raw_estimate (fst (fst p)) (snd (fst p)) (snd p) = None).
      { intros p Hp Hsid. apply passes_elem in Hp as (-> & -> & Hin).
        unfold raw_estimate.
        pose proof (Honly (snd p) Hin ltac:(congruence)) as Hg.
        destruct (gate env (fst (snd p)) (stamp m)) as [eu hp| |];
          [destruct (Hg eu hp eq_refl) | reflexivity | reflexivity]. }
      destruct (run_keeps (passes env (stamp m) (subjects m) s) s sidB Hrej)
        as [Hs Hb].
      destruct (image_callback_run env m s) as (Hbufs & _ & _).
      rewrite callback_emissions, callback_samples, Hbufs.
      split; [|split; assumption].
      apply run_no_emissions, Hrej.
    + assert (Hgen : forall (l : list Item) (s0 : State),
                (forall it, it ∈ l -> it ∈ subjects m) ->
                forall row, row ∈ eyes_rows env (stamp m) l s0 ->
                exists item g, item ∈ subjects m /\ fst item = sidA /\
                               row = eyes_row item g);
        [|apply Hgen; auto].
      induction l as [|item l IH]; intros s0 Hsub row Hrow.
      { inversion Hrow. }
      cbn [eyes_rows] in Hrow.
      destruct (loop_body env (stamp m) None item s0) as [[e|[r|]] s1] eqn:E.
      * inversion Hrow.
      * change (option_list (Some r)) with [r] in Hrow. cbn [app] in Hrow.
        apply elem_of_cons in Hrow as [->|Hrow].
        -- assert (Hf : fst (loop_body env (stamp m) None item s0) = inr (Some r))
             by (rewrite E; reflexivity).
           destruct (loop_body_row env (stamp m) item s0 r Hf)
             as ((eu & hp & Hg) & g & Hr & _).
           exists item, g. split; [apply Hsub, elem_of_cons; auto|].
           split; [|exact Hr].
           destruct (decide (fst item = sidA)) as [Heq|Hne]; [exact Heq|].
           destruct (Honly item (Hsub item ltac:(apply elem_of_cons; auto)) Hne
                       eu hp Hg).
        -- apply (IH s1); [|exact Hrow].
           intros it Hit. apply Hsub. apply elem_of_cons. auto.
      * cbn [option_list app] in Hrow. apply (IH s1); [|exact Hrow].
        intros it Hit. apply Hsub. apply elem_of_cons. auto.
Qed.

End RunProperties.

Module MoreScenarios.
Import Demo.

Local Abbreviation State := DemoState.
Local Abbreviation Env := DemoEnv.
Local Abbreviation Msg := (@Msg string).

Lemma ticking_returns_12 :
  raises (fst (image_callback (env_ticking 950 1010 6 6) (frame 1000 [1%Z; 2%Z])
                 two_full)) = false.
Proof. vm_compute. reflexivity. Defined.

Lemma ticking_returns_21 :
  raises (fst (image_callback (env_ticking 950 1010 6 6) (frame 1000 [2%Z; 1%Z])
                 two_full)) = false.
Proof. vm_compute. reflexivity. Defined.

(** Two subjects with full buffers and a clock that moves: the image
    published is the row of subject 1 above the row of subject 2. *)
Lemma composite_image_witness :
  published_images
    (trace (snd (image_callback (env_ticking 950 1010 6 6) (frame 1000 [1%Z; 2%Z])
                   two_full)))
  = ["R|L/R|L"%string].
Proof.
  rewrite (proj1 (composite_image (env_ticking 950 1010 6 6) (frame 1000 [1%Z; 2%Z])
                    two_full) ticking_returns_12).
  vm_compute. reflexivity.
Defined.

Lemma gate_raising_900 :
  gate (env_raising "queue is full" 900 1010 5 5) 1 (ms 1000)
  = Accept (5, 5)%Q (5, 5)%Q.
Proof. reflexivity. Defined.

Lemma raising_900 :
  let med := np_average [g 1 1; g 2 2; g 3 3; g 4 4; g 5 5] average_weights in
  sendTransform (env_raising "queue is full" 900 1010 5 5) (quaternion_of med)
    (ms 1000) 1
  = Some "queue is full"%string.
Proof. reflexivity. Defined.

Lemma not_closed_topic : "queue is full"%string <> closed_topic.
Proof. discriminate. Defined.

(** Another [rospy.ROSException]: nothing is returned and nothing is
    printed after the Euler angles. *)
Lemma ros_exception_swallowed_witness :
  fst (compute_eye_gaze_estimation (env_raising "queue is full" 900 1010 5 5) 1
         (ms 1000) "in:R" "in:L" four) = inr None /\
  printed (trace (snd (compute_eye_gaze_estimation
                         (env_raising "queue is full" 900 1010 5 5) 1 (ms 1000)
                         "in:R" "in:L" four)))
  = printed (trace four) ++ [EulerAnglesHead (5, 5)%Q].
Proof.
  destruct (ros_exception_swallowed (env_raising "queue is full" 900 1010 5 5) 1%Z
              (ms 1000) "in:R" "in:L" four (MkDeque [g 1 1; g 2 2; g 3 3; g 4 4] 5)
              (5, 5)%Q (5, 5)%Q "queue is full" gate_raising_900
              Scenarios.four_buffer eq_refl raising_900)
    as (Hr & _ & _ & _ & _ & Hp).
  split; [exact Hr | exact (Hp not_closed_topic)].
Defined.

(** The same pass with the broadcast going through and with the topic
    closed: the same buffers. *)
Lemma buffers_ignore_broadcast_witness :
  gaze_buffer_c (snd (loop_body (env_ok 900 1010 5 5) (ms 1000) None
                        (1%Z, both_eyes) four)) =
  gaze_buffer_c (snd (loop_body (env_closed 900 1010 5 5) (ms 1000) None
                        (1%Z, both_eyes) four)).
Proof.
  apply (proj1 (buffers_ignore_broadcast (env_ok 900 1010 5 5)
                  (env_closed 900 1010 5 5)
                  (fun _ => eq_refl) (fun _ _ => eq_refl))).
  reflexivity.
Defined.

Lemma swapped_12 :
  subjects (frame 1000 [1%Z; 2%Z]) ≡ₚ subjects (frame 1000 [2%Z; 1%Z]).
Proof. apply perm_swap. Defined.

(** Subjects 1 and 2 in either order. *)
Lemma iteration_order_irrelevant_witness :
  gaze_buffer_c (snd (image_callback (env_ticking 950 1010 6 6)
                        (frame 1000 [1%Z; 2%Z]) two_full)) =
  gaze_buffer_c (snd (image_callback (env_ticking 950 1010 6 6)
                        (frame 1000 [2%Z; 1%Z]) two_full)).
Proof.
  apply (proj1 (iteration_order_irrelevant (env_ticking 950 1010 6 6)
                  (frame 1000 [1%Z; 2%Z]) (frame 1000 [2%Z; 1%Z]) two_full
                  (Scenarios.wf_frame 1000 _ Scenarios.nodup_12) eq_refl swapped_12
                  ticking_returns_12 ticking_returns_21)).
Defined.

(** Six pushes into an empty buffer leave five samples. *)
Lemma window_fills_and_stays_full_witness :
  length (samples (spin six_frames (init (ms 900) : State)) 1) = 5.
Proof.
  rewrite (proj1 (window_fills_and_stays_full six_frames (init (ms 900) : State) 1%Z
                    (init_wf (ms 900)))).
  vm_compute. reflexivity.
Defined.

Lemma all_stale :
  forall item : Z * SubjectImages,
    item ∈ subjects (frame 1000 [1%Z; 2%Z]) ->
    forall euler hp,
      gate (env_ok 700 1010 5 5) (fst item) (stamp (frame 1000 [1%Z; 2%Z]))
      <> Accept euler hp.
Proof. intros item _ euler hp. discriminate. Defined.

(** Poses 0.3 s old for both subjects: two lines printed, nothing else. *)
Lemma rejected_frame_only_prints_witness :
  trace (snd (image_callback (env_ok 700 1010 5 5) (frame 1000 [1%Z; 2%Z]) four)) =
    [Diagnostic (TooBigTimeDiff (MkT 0 300000000));
     Diagnostic (TooBigTimeDiff (MkT 0 300000000))].
Proof.
  rewrite (proj1 (rejected_frame_only_prints (env_ok 700 1010 5 5)
                    (frame 1000 [1%Z; 2%Z]) four all_stale)).
  reflexivity.
Defined.

Lemma pose_after_frame : (to_nsec (ms 1000) <= to_nsec (ms 5000))%Z.
Proof. vm_compute. discriminate. Defined.

(** A pose stamped four seconds after the frame: the gaze network is
    asked. *)
Lemma latest_pose_is_used_witness :
  estimator_calls
    (trace (snd (compute_eye_gaze_estimation (env_ok 5000 1010 5 5) 1 (ms 1000)
                   "in:R" "in:L" four)))
  = estimator_calls (trace four) ++ [("in:L", "in:R", (5, 5)%Q)]%string.
Proof.
  exact (proj1 (latest_pose_is_used (env_ok 5000 1010 5 5) 1%Z (ms 5000) (5, 5)%Q
                  "in:R" "in:L" four eq_refl eq_refl) (ms 1000) pose_after_frame).
Defined.

Lemma only_subject_1 :
  forall item : Z * SubjectImages,
    item ∈ subjects (frame 1000 [1%Z; 2%Z]) -> fst item ≠ 1%Z ->
    forall euler hp,
      gate (env_only 1 900 1010 6 6) (fst item) (stamp (frame 1000 [1%Z; 2%Z]))
      ≠ Accept euler hp.
Proof.
  intros item Hin Hne euler hp.
  apply elem_of_cons in Hin as [->|Hin]; [destruct Hne; reflexivity|].
  apply list_elem_of_singleton in Hin as ->. discriminate.
Defined.

(** Two subjects with full buffers in one message, only subject 1 has a
    pose: subject 2 keeps its five samples and nothing is handed on for
    it. *)
Lemma other_subjects_untouched_witness :
  emissions 2 (trace (snd (image_callback (env_only 1 900 1010 6 6)
                             (frame 1000 [1%Z; 2%Z]) two_full)))
  = emissions 2 (trace two_full) /\
  samples (snd (image_callback (env_only 1 900 1010 6 6) (frame 1000 [1%Z; 2%Z])
                  two_full)) 2
  = samples two_full 2.
Proof.
  destruct (proj1 (proj2 (proj2 other_subjects_untouched) (env_only 1 900 1010 6 6)
                     (frame 1000 [1%Z; 2%Z]) two_full 1%Z only_subject_1)
                  2%Z ltac:(discriminate))
    as (He & Hs & _).
  split; [exact He | exact Hs].
Defined.

(** The clock has not moved since the frame rate was last printed: the
    call that fills the window raises. *)
Lemma escaping_exceptions_witness :
  fst (compute_eye_gaze_estimation (env_ok 900 900 5 5) 1 (ms 1000) "in:R" "in:L" four)
  = inl ZeroDivisionError.
Proof.
  apply (proj2 (proj1 escaping_exceptions (env_ok 900 900 5 5) 1%Z (ms 1000)
                  "in:R" "in:L" four ZeroDivisionError)).
  right. split; [reflexivity|].
  exists (5, 5)%Q, (5, 5)%Q, (MkDeque [g 1 1; g 2 2; g 3 3; g 4 4] 5).
  repeat split; reflexivity.
Defined.

End MoreScenarios.
